(** * I2C target motor controller: protocol engine and motor state

    A shallow embedding of [upy/motor_controller.py] and [upy/i2c_slave.py]:
    the four-speed motor controller guarded by its enabled flag, and the
    interrupt handler that decodes a command frame from the lower half of the
    shared buffer and publishes a response frame in the upper half.

    Python objects become records, methods become functions that pass the
    object explicitly, and exceptions become an explicit [Raise] result.  The
    collaborators that the two modules import but do not define (the payload
    codec, the command table, string formatting, the colour constants) are the
    fields of the class [Platform]. *)

From Stdlib Require Import List ZArith Bool Lia.
From Stdlib.Strings Require Import String Ascii Byte.
From Stdlib Require Import DecimalString.
Import ListNotations.

Local Open Scope string_scope.

(** ** Exceptions *)

(** The classes that the [except] clauses of the sources tell apart.  Every
    value of [exc] is an instance of Python's [Exception]; a subclass of
    [ValueError] counts as [ValueError]. *)
Inductive exc_class : Type :=
| ValueError
| TypeError
| OtherException (name : string).

Record exc : Type := mkExc { exc_type : exc_class; exc_msg : string }.

Inductive result (A : Type) : Type :=
| Ok (a : A)
| Raise (e : exc).
Arguments Ok {A} a.
Arguments Raise {A} e.

Definition is_ValueError (e : exc) : bool :=
  match exc_type e with ValueError => true | _ => false end.

(** [str(e)] and ['{}'.format(type(e))]. *)
Definition str_exc (e : exc) : string := exc_msg e.

Definition str_exc_type (e : exc) : string :=
  match exc_type e with
  | ValueError => "<class 'ValueError'>"
  | TypeError => "<class 'TypeError'>"
  | OtherException name => "<class '" ++ name ++ "'>"
  end.

(** ** Strings *)

(** [needle in hay]. *)
Fixpoint contains (needle hay : string) : bool :=
  if String.prefix needle hay then true
  else match hay with
       | EmptyString => false
       | String _ rest => contains needle rest
       end.

(** ['{}'.format(n)] for an int. *)
Definition str_int (n : Z) : string := NilZero.string_of_int (Z.to_int n).

Fixpoint zero_pad (k : nat) : string :=
  match k with O => "" | S k' => "0" ++ zero_pad k' end.

(** ['{:05d}'.format(n)] for a non-negative int. *)
Definition fmt_05d (n : Z) : string :=
  let s := str_int n in zero_pad (5 - String.length s) ++ s.

Definition hex_digit (n : N) : ascii :=
  match n with
  | 0 => "0" | 1 => "1" | 2 => "2" | 3 => "3" | 4 => "4" | 5 => "5"
  | 6 => "6" | 7 => "7" | 8 => "8" | 9 => "9" | 10 => "a" | 11 => "b"
  | 12 => "c" | 13 => "d" | 14 => "e" | _ => "f"
  end%N%char.

(** ['{:02x}'.format(b)] for a byte. *)
Definition fmt_02x (b : byte) : string :=
  let n := Byte.to_N b in
  String (hex_digit (n / 16)) (String (hex_digit (n mod 16)) "").

(** [sep.join(parts)]. *)
Fixpoint join (sep : string) (parts : list string) : string :=
  match parts with
  | [] => ""
  | [p] => p
  | p :: rest => p ++ sep ++ join sep rest
  end.

(** ** Vocabulary *)

(** Modelled from the spec: the command enumeration ([command.py]) is not
    among the sources; the spec lists its verbs as PING, STOP, GO, REQUEST,
    ENABLE, DISABLE, ACK, RESPONSE and ERROR. *)
Module Command.
Inductive t : Type :=
| PING | STOP | GO | REQUEST | ENABLE | DISABLE | ACK | RESPONSE | ERROR.
End Command.

(** Modelled from the spec: the outcome enumeration ([response.py]) is not
    among the sources; the spec lists its values as OKAY and FAIL. *)
Module Response.
Inductive t : Type := OKAY | FAIL.
End Response.

(** The severities of [core.logger]: one per logging method the sources call. *)
Module Level.
Inductive t : Type := DEBUG | INFO | WARN | ERROR.
End Level.

(** A logger is modelled by the records it has been asked to emit. *)
Definition log_entry : Type := (Level.t * string)%type.

(** ** Collaborators *)

(** What the two modules import and do not define.  [float] is the
    interpreter's float type: the sources only store and forward its values,
    so nothing but three ways to make one is needed. *)
Class Scalars : Type := {
  float : Type;
  (** the literals [0.0] and [0.3], and [float(n)] for an int *)
  f0_0 : float;
  f0_3 : float;
  float_of_int : Z -> float;
  (** ['{:.2f}'.format(x)] *)
  fmt_2f : float -> string;
  (** the type of [Payload.code] and ['{}'.format(code)] *)
  code : Type;
  str_code : code -> string
}.

(** A [Payload] object: [Payload(command, pfwd, sfwd, paft, saft)] stores the
    code of its command, [Payload.from_bytes] the code it has decoded. *)
Record Payload `{Scalars} : Type := mkPayload {
  payload_code : code;
  pfwd : float;
  sfwd : float;
  paft : float;
  saft : float
}.
Arguments mkPayload {_} _ _ _ _ _.

Class Platform `{Scalars} : Type := {
  (** [Payload.PACKET_SIZE] *)
  PACKET_SIZE : nat;
  (** [Command.code] and [Command.from_code]; [None] stands for a returned
      object that is no member of the enumeration *)
  Command_code : Command.t -> code;
  Command_from_code : code -> result (option Command.t);
  (** [Payload.from_bytes], [Payload.to_bytes] and ['{}'.format(payload)] *)
  Payload_from_bytes : list byte -> result Payload;
  Payload_to_bytes : Payload -> result (list byte);
  str_payload : Payload -> string;
  (** [I2CTarget.IRQ_END_READ] and [I2CTarget.IRQ_END_WRITE] *)
  IRQ_END_READ : Z;
  IRQ_END_WRITE : Z;
  (** [int(s, 0)] *)
  int_of_str : string -> result Z;
  (** ['0x{:02X}'.format(n)] *)
  fmt_0x02X : Z -> string;
  (** colorama *)
  Fore_RED : string;
  Fore_GREEN : string;
  Fore_BLUE : string;
  Style_DIM : string
}.

Definition Payload_new `{Platform} (command : Command.t)
    (pfwd sfwd paft saft : float) : Payload :=
  mkPayload (Command_code command) pfwd sfwd paft saft.

(** What [I2CSlave.enable] and [I2CSlave.disable] need besides: the bus
    hardware, whose calls may raise, and two more strings. *)
Class Bus : Type := {
  (** [I2CTarget(id, address, mem=...)] *)
  I2CTarget_new : Z -> Z -> result unit;
  (** [target.irq(handler=..., trigger=..., hard=False)] *)
  I2CTarget_irq : Z -> result unit;
  (** [target.deinit()] *)
  I2CTarget_deinit : result unit;
  (** ['{:#04x}'.format(n)] *)
  fmt_alt_04x : Z -> string;
  Fore_WHITE : string
}.

(** ** Configuration *)

(** The address is configured as a number or as a numeric literal. *)
Inductive cfg_address : Type :=
| AddrInt (n : Z)
| AddrStr (s : string).

(** The section [config["kros"]["i2c_slave"]] of a configuration that has
    one, with an integer under ['i2c_id'] and an integer or a string under
    ['i2c_address'].  A configuration without the section, or with a key
    missing or a value of another type, is outside this type: on such a one
    the constructor raises at the lookup or at the last format. *)
Record Config : Type := mkConfig {
  cfg_i2c_id : Z;
  cfg_i2c_address : cfg_address
}.

(** ** Component lifecycle *)

(** Modelled from the spec: the lifecycle base class ([core/component.py]) is
    not among the sources.  The spec gives it the states Disabled, Enabled
    and Closed, with enable taking Disabled to Enabled, disable taking Enabled
    to Disabled, close taking either to Closed, no transition out of Closed,
    and the harmless repeats idempotent. *)
Module Component.
Inductive t : Type := Disabled | Enabled | Closed.

Definition init (enabled : bool) : t := if enabled then Enabled else Disabled.

Definition enabled (c : t) : bool :=
  match c with Enabled => true | _ => false end.

Definition closed (c : t) : bool :=
  match c with Closed => true | _ => false end.

Definition enable (c : t) : t :=
  match c with Disabled => Enabled | _ => c end.

Definition disable (c : t) : t :=
  match c with Enabled => Disabled | _ => c end.

Definition close (c : t) : t := Closed.
End Component.

(** ** motor_controller.py *)

Module MotorController.
Section WithPlatform.
Context {SC : Scalars} {PF : Platform}.

Record t : Type := mk {
  _log : list log_entry;
  _component : Component.t;
  _pfwd : float;
  _sfwd : float;
  _paft : float;
  _saft : float;
  _debug : bool
}.

Definition enabled (self : t) : bool := Component.enabled (_component self).
Definition closed (self : t) : bool := Component.closed (_component self).

Definition log (lvl : Level.t) (msg : string) (self : t) : t :=
  mk (_log self ++ [(lvl, msg)])%list (_component self)
     (_pfwd self) (_sfwd self) (_paft self) (_saft self) (_debug self).

Definition set_speeds (pfwd sfwd paft saft : float) (self : t) : t :=
  mk (_log self) (_component self) pfwd sfwd paft saft (_debug self).

Definition set_component (c : Component.t) (self : t) : t :=
  mk (_log self) c (_pfwd self) (_sfwd self) (_paft self) (_saft self)
     (_debug self).

Definition log_if_debug (lvl : Level.t) (msg : string) (self : t) : t :=
  if _debug self then log lvl msg self else self.

(** [__init__]: the logger's threshold [level] plays no part here. *)
Definition init (config : option Config) : result t :=
  match config with
  | None => Raise (mkExc ValueError "no configuration provided.")
  | Some _ =>
      Ok (mk [(Level.INFO, "initialising motor controller…");
              (Level.INFO, "ready.")]
             (Component.init false) f0_0 f0_0 f0_0 f0_0 false)
  end.

Definition get_speeds (self : t) : float * float * float * float :=
  (_pfwd self, _sfwd self, _paft self, _saft self).

Definition stop (self : t) : Response.t * t :=
  if negb (enabled self) then (Response.FAIL, self)
  else
    let self := log_if_debug Level.INFO (Fore_RED ++ "STOP") self in
    (Response.OKAY, set_speeds f0_0 f0_0 f0_0 f0_0 self).

Definition go (pfwd sfwd paft saft : float) (self : t) : Response.t * t :=
  if negb (enabled self) then (Response.FAIL, self)
  else
    let self :=
      log_if_debug Level.INFO
        (Fore_GREEN ++ "GO (pfwd=" ++ fmt_2f pfwd ++ ", sfwd=" ++ fmt_2f sfwd
           ++ ", paft=" ++ fmt_2f paft ++ ", saft=" ++ fmt_2f saft ++ ")")
        self in
    (Response.OKAY, set_speeds pfwd sfwd paft saft self).

Definition enable (self : t) : t :=
  if negb (enabled self) then
    let self := set_component (Component.enable (_component self)) self in
    log_if_debug Level.INFO "enabled." self
  else self.

Definition disable (self : t) : t :=
  if enabled self then
    let self := snd (stop self) in
    let self := set_component (Component.disable (_component self)) self in
    log_if_debug Level.INFO "disabled." self
  else self.

Definition close (self : t) : t :=
  if negb (closed self) then
    let self := disable self in
    let self := set_component (Component.close (_component self)) self in
    log_if_debug Level.INFO "closed." self
  else self.

(** The operations a caller can apply to a constructed controller. *)
Inductive op : Type :=
| Stop
| Go (pfwd sfwd paft saft : float)
| Enable
| Disable
| Close.

Definition step (self : t) (o : op) : t :=
  match o with
  | Stop => snd (stop self)
  | Go a b c d => snd (go a b c d self)
  | Enable => enable self
  | Disable => disable self
  | Close => close self
  end.

Definition run (ops : list op) (self : t) : t := fold_left step ops self.

End WithPlatform.
End MotorController.

(** ** Byte arrays *)

Definition zeros (n : nat) : list byte := repeat x00 n.

(** [m[start:stop]] for non-negative bounds. *)
Definition slice (m : list byte) (start stop : nat) : list byte :=
  firstn (stop - start) (skipn start m).

(** [m[start:stop] = data] on a bytearray, for non-negative bounds: both
    bounds are clamped to the length, an empty or inverted range inserts at
    [start], and the array changes length when [data] does not fill the
    range. *)
Definition slice_assign (m : list byte) (start stop : nat) (data : list byte)
    : list byte :=
  let lo := Nat.min start (List.length m) in
  let hi := Nat.max lo (Nat.min stop (List.length m)) in
  (firstn lo m ++ data ++ skipn hi m)%list.

(** ** i2c_slave.py *)

(** The handler is what the hardware calls between [enable] and [disable];
    these two, which attach the buffer to the bus hardware and detach it,
    come last, with the calls into the hardware that they make. *)
Module I2CSlave.
Section WithPlatform.
Context {SC : Scalars} {PF : Platform}.

Definition CMD_OFFSET : nat := 0.
Definition RSP_OFFSET : nat := PACKET_SIZE.
Definition MEMORY_SIZE : nat := 2 * PACKET_SIZE.

Record t : Type := mk {
  _log : list log_entry;
  _i2c_id : Z;
  _i2c_address : Z;
  (** [LED(1)]: whether the indicator is lit *)
  _led : bool;
  (** whether [self._i2c] holds a target *)
  _i2c : bool;
  _debug : bool;
  _tx_count : Z;
  _mem : list byte;
  _motor_controller : MotorController.t
}.

Definition set_log (l : list log_entry) (s : t) : t :=
  mk l (_i2c_id s) (_i2c_address s) (_led s) (_i2c s) (_debug s)
     (_tx_count s) (_mem s) (_motor_controller s).

Definition set_led (b : bool) (s : t) : t :=
  mk (_log s) (_i2c_id s) (_i2c_address s) b (_i2c s) (_debug s)
     (_tx_count s) (_mem s) (_motor_controller s).

Definition set_tx_count (n : Z) (s : t) : t :=
  mk (_log s) (_i2c_id s) (_i2c_address s) (_led s) (_i2c s) (_debug s)
     n (_mem s) (_motor_controller s).

Definition set_mem (m : list byte) (s : t) : t :=
  mk (_log s) (_i2c_id s) (_i2c_address s) (_led s) (_i2c s) (_debug s)
     (_tx_count s) m (_motor_controller s).

Definition set_motor_controller (mc : MotorController.t) (s : t) : t :=
  mk (_log s) (_i2c_id s) (_i2c_address s) (_led s) (_i2c s) (_debug s)
     (_tx_count s) (_mem s) mc.

Definition cmd_window (m : list byte) : list byte :=
  slice m CMD_OFFSET (CMD_OFFSET + PACKET_SIZE).

Definition rsp_window (m : list byte) : list byte :=
  slice m RSP_OFFSET (RSP_OFFSET + PACKET_SIZE).

(** *** Effects *)

Inductive motor_call : Type :=
| CallStop
| CallGo (pfwd sfwd paft saft : float)
| CallGetSpeeds
| CallEnable
| CallDisable.

(** What a run does, in order. *)
Inductive event : Type :=
| EvAssign (start stop : nat) (data : list byte)
| EvFromBytes (bs : list byte)
| EvFromCode (c : code)
| EvToBytes (p : Payload)
| EvMotor (call : motor_call)
| EvLog (lvl : Level.t) (msg : string)
| EvPrintException (e : exc)
| EvSleepUs (us : Z)
| EvTxCount
| EvLedToggle.

(** Each step is recorded with the buffer as a bus read would find it right
    after the step. *)
Definition trace : Type := list (event * list byte).

(** A method body: it may raise, it updates the object either way, and it
    leaves a trace. *)
Definition M (A : Type) : Type := t -> result A * t * trace.

Definition ret {A : Type} (a : A) : M A := fun s => (Ok a, s, []).

Definition bind {A B : Type} (c : M A) (k : A -> M B) : M B :=
  fun s =>
    match c s with
    | (Ok a, s1, tr1) =>
        match k a s1 with (r, s2, tr2) => (r, s2, (tr1 ++ tr2)%list) end
    | (Raise e, s1, tr1) => (Raise e, s1, tr1)
    end.

(** [try: body / except Exception as e: handler(e)]. *)
Definition try_except {A : Type} (body : M A) (handler : exc -> M A) : M A :=
  fun s =>
    match body s with
    | (Ok a, s1, tr1) => (Ok a, s1, tr1)
    | (Raise e, s1, tr1) =>
        match handler e s1 with (r, s2, tr2) => (r, s2, (tr1 ++ tr2)%list) end
    end.

Definition raise {A : Type} (e : exc) : M A := fun s => (Raise e, s, []).

Definition get : M t := fun s => (Ok s, s, []).

Notation "x <- c ;; k" := (bind c (fun x => k))
  (at level 61, c at next level, right associativity).
Notation "c ;; k" := (bind c (fun _ => k))
  (at level 61, right associativity).

Definition when (b : bool) (c : M unit) : M unit := if b then c else ret tt.

Definition observe (ev : event) : M unit :=
  fun s => (Ok tt, s, [(ev, _mem s)]).

Definition log (lvl : Level.t) (msg : string) : M unit :=
  fun s =>
    (Ok tt, set_log (_log s ++ [(lvl, msg)])%list s, [(EvLog lvl msg, _mem s)]).

Definition when_debug (lvl : Level.t) (msg : t -> string) : M unit :=
  s <- get ;; when (_debug s) (log lvl (msg s)).

(** [self._mem[start:stop] = data]. *)
Definition mem_assign (start stop : nat) (data : list byte) : M unit :=
  fun s =>
    let m := slice_assign (_mem s) start stop data in
    (Ok tt, set_mem m s, [(EvAssign start stop data, m)]).

Definition from_bytes (bs : list byte) : M Payload :=
  fun s => (Payload_from_bytes bs, s, [(EvFromBytes bs, _mem s)]).

Definition from_code (c : code) : M (option Command.t) :=
  fun s => (Command_from_code c, s, [(EvFromCode c, _mem s)]).

Definition to_bytes (p : Payload) : M (list byte) :=
  fun s => (Payload_to_bytes p, s, [(EvToBytes p, _mem s)]).

(** A call of a method of [self._motor_controller]. *)
Definition motor {A : Type} (call : motor_call)
    (method : MotorController.t -> A * MotorController.t) : M A :=
  fun s =>
    match method (_motor_controller s) with
    | (a, mc) => (Ok a, set_motor_controller mc s, [(EvMotor call, _mem s)])
    end.

Definition get_speeds : M (float * float * float * float) :=
  motor CallGetSpeeds (fun mc => (MotorController.get_speeds mc, mc)).

(** *** Methods *)

(** What a caller may pass for [command]. *)
Inductive pyobj : Type :=
| ObjCommand (c : Command.t)
| ObjOther (type_name : string).

Definition _send_response (command : pyobj) (pfwd sfwd paft saft : float)
    : M unit :=
  try_except
    (match command with
     | ObjOther type_name =>
         raise (mkExc TypeError ("expected command, not " ++ type_name))
     | ObjCommand c =>
         let response := Payload_new c pfwd sfwd paft saft in
         response_bytes <- to_bytes response ;;
         mem_assign RSP_OFFSET (RSP_OFFSET + List.length response_bytes)
           response_bytes ;;
         when_debug Level.DEBUG
           (fun s => "full memory: " ++ join " " (map fmt_02x (_mem s))) ;;
         when_debug Level.DEBUG
           (fun _ => "response ready: " ++ str_payload response) ;;
         observe (EvSleepUs 50)
     end)
    (fun e =>
       log Level.ERROR
         (str_exc_type e ++ " raised sending response: " ++ str_exc e) ;;
       observe (EvPrintException e)).

Definition _handle_ping : M unit :=
  when_debug Level.INFO (fun _ => "command: PING") ;;
  _send_response (ObjCommand Command.PING) f0_3 f0_3 f0_3 f0_3.

Definition _handle_stop : M unit :=
  when_debug Level.INFO
    (fun s => Fore_RED ++ Style_DIM ++ "[" ++ fmt_05d (_tx_count s)
                ++ "] command: STOP") ;;
  _response <- motor CallStop MotorController.stop ;;
  match _response with
  | Response.OKAY =>
      _speeds <- get_speeds ;;
      match _speeds with
      | (a, b, c, d) => _send_response (ObjCommand Command.ACK) a b c d
      end
  | Response.FAIL =>
      _send_response (ObjCommand Command.ERROR) f0_0 f0_0 f0_0 f0_0
  end.

Definition _handle_go (payload : Payload) : M unit :=
  when_debug Level.INFO
    (fun s => Style_DIM ++ "[" ++ fmt_05d (_tx_count s)
                ++ "] command: GO (pfwd=" ++ fmt_2f (pfwd payload)
                ++ ", sfwd=" ++ fmt_2f (sfwd payload)
                ++ ", paft=" ++ fmt_2f (paft payload)
                ++ ", saft=" ++ fmt_2f (saft payload) ++ ")") ;;
  _response <- motor (CallGo (pfwd payload) (sfwd payload) (paft payload)
                        (saft payload))
                 (MotorController.go (pfwd payload) (sfwd payload)
                    (paft payload) (saft payload)) ;;
  match _response with
  | Response.OKAY =>
      _speeds <- get_speeds ;;
      match _speeds with
      | (a, b, c, d) => _send_response (ObjCommand Command.ACK) a b c d
      end
  | Response.FAIL =>
      _send_response (ObjCommand Command.ERROR) f0_0 f0_0 f0_0 f0_0
  end.

Definition _handle_request : M unit :=
  when_debug Level.INFO (fun _ => "command: REQUEST") ;;
  log Level.INFO (Fore_BLUE ++ "command: REQUEST") ;;
  _speeds <- get_speeds ;;
  match _speeds with
  | (a, b, c, d) => _send_response (ObjCommand Command.RESPONSE) a b c d
  end.

Definition _handle_enable : M unit :=
  log Level.INFO "command: ENABLE" ;;
  motor CallEnable (fun mc => (tt, MotorController.enable mc)) ;;
  _send_response (ObjCommand Command.ACK) f0_0 f0_0 f0_0 f0_0.

Definition _handle_disable : M unit :=
  log Level.INFO "command: DISABLE" ;;
  motor CallDisable (fun mc => (tt, MotorController.disable mc)) ;;
  _send_response (ObjCommand Command.ACK) f0_0 f0_0 f0_0 f0_0.

Definition _handle_error (error_code : Z) (message : string) : M unit :=
  log Level.ERROR ("Error " ++ str_int error_code ++ ": " ++ message) ;;
  _send_response (ObjCommand Command.ERROR) (float_of_int error_code)
    f0_0 f0_0 f0_0.

(** [self._tx_count += 1] and [self._led.toggle()]. *)
Definition count_transaction : M unit :=
  fun s => (Ok tt, set_tx_count (_tx_count s + 1) s, [(EvTxCount, _mem s)]).

Definition led_toggle : M unit :=
  fun s => (Ok tt, set_led (negb (_led s)) s, [(EvLedToggle, _mem s)]).

(** The [if]/[elif] chain on the command. *)
Definition dispatch (command : option Command.t) (cmd_payload : Payload)
    : M unit :=
  match command with
  | Some Command.PING => _handle_ping
  | Some Command.STOP => _handle_stop
  | Some Command.GO => _handle_go cmd_payload
  | Some Command.REQUEST => _handle_request
  | Some Command.ENABLE => _handle_enable
  | Some Command.DISABLE => _handle_disable
  | _ =>
      _handle_error 1
        ("unknown command: " ++ str_code (payload_code cmd_payload))
  end.

(** The [try] block of the handler. *)
Definition process_command : M unit :=
  s <- get ;;
  let cmd_bytes := slice (_mem s) CMD_OFFSET (CMD_OFFSET + PACKET_SIZE) in
  cmd_payload <- from_bytes cmd_bytes ;;
  when_debug Level.DEBUG (fun _ => "rx: " ++ str_payload cmd_payload) ;;
  command <- from_code (payload_code cmd_payload) ;;
  dispatch command cmd_payload ;;
  count_transaction ;;
  led_toggle.

(** Its two [except] clauses: [ValueError] first, then [Exception]. *)
Definition process_failed (e : exc) : M unit :=
  if is_ValueError e then
    let error_msg := str_exc e in
    if negb (contains "invalid sync header" error_msg) then
      log Level.ERROR ("payload error: " ++ str_exc e) ;;
      _handle_error 2 error_msg
    else
      log Level.WARN ("payload warning: " ++ str_exc e) ;;
      _handle_error 3 error_msg
  else
    log Level.ERROR
      (str_exc_type e ++ " raised in irq handler: " ++ str_exc e) ;;
    observe (EvPrintException e) ;;
    _handle_error 4 (str_exc e).

(** [flags] is what [i2c_target.irq().flags()] returns. *)
Definition _irq_handler (flags : Z) : M unit :=
  when (negb (Z.land flags IRQ_END_WRITE =? 0)%Z)
    (mem_assign RSP_OFFSET (RSP_OFFSET + PACKET_SIZE) (zeros PACKET_SIZE) ;;
     try_except process_command process_failed) ;;
  s <- get ;;
  when (_debug s)
    (when (negb (Z.land flags IRQ_END_READ =? 0)%Z)
       (log Level.DEBUG "master read response")).

(** The address as [__init__] normalises it: a string goes through
    [int(s, 0)]. *)
Definition address_of (cfg : Config) : result Z :=
  match cfg_i2c_address cfg with
  | AddrStr a => int_of_str a
  | AddrInt a => Ok a
  end.

(** [__init__], for no configuration or one of type [Config], on which the
    lookups and the last format cannot fail; the logger's threshold [level]
    plays no part here. *)
Definition init (config : option Config) : result t :=
  match config with
  | None => Raise (mkExc ValueError "missing configuration.")
  | Some cfg =>
      match address_of cfg with
      | Raise e => Raise e
      | Ok address =>
          match MotorController.init config with
          | Raise e => Raise e
          | Ok mc =>
              let self :=
                mk [] (cfg_i2c_id cfg) address false false false 0
                   (zeros MEMORY_SIZE) mc in
              match
                (_send_response (ObjCommand Command.ACK) f0_0 f0_0 f0_0 f0_0 ;;
                 log Level.INFO
                   ("ready on bus " ++ str_int (cfg_i2c_id cfg) ++ " at "
                      ++ fmt_0x02X address)) self
              with
              | (Ok _, self, _) => Ok self
              | (Raise e, _, _) => Raise e
              end
          end
      end
  end.

(** *** Running the handler *)

Definition outcome {A : Type} (r : result A * t * trace) : result A :=
  fst (fst r).
Definition final {A : Type} (r : result A * t * trace) : t := snd (fst r).
Definition steps {A : Type} (r : result A * t * trace) : trace := snd r.

(** The bus master writes [frame] at the start of the buffer. *)
Definition master_write (frame : list byte) (s : t) : t :=
  set_mem
    (slice_assign (_mem s) CMD_OFFSET (CMD_OFFSET + List.length frame) frame)
    s.

(** An interrupt whose flags include the end of a write. *)
Definition end_of_write (flags : Z) : Prop :=
  Z.land flags IRQ_END_WRITE <> 0%Z.

(** One command: the master's write and the interrupt that follows it. *)
Definition transact (flags : Z) (s : t) (frame : list byte) : t :=
  final (_irq_handler flags (master_write frame s)).

(** What the handler will make of [frame]. *)
Definition verb_of (frame : list byte) : option Command.t :=
  match Payload_from_bytes frame with
  | Ok p =>
      match Command_from_code (payload_code p) with
      | Ok (Some c) => Some c
      | _ => None
      end
  | Raise _ => None
  end.

(** Frames that cannot change the stored speeds: every frame but a STOP, a
    GO or a DISABLE. *)
Definition keeps_speeds (frame : list byte) : bool :=
  match verb_of frame with
  | Some Command.STOP | Some Command.GO | Some Command.DISABLE => false
  | _ => true
  end.

Definition is_assign (e : event * list byte) : bool :=
  match fst e with EvAssign _ _ _ => true | _ => false end.

Definition is_motor (e : event * list byte) : bool :=
  match fst e with EvMotor _ => true | _ => false end.

(** The steps of [tr] that come before its last buffer assignment; all of
    [tr] when it has none. *)
Fixpoint before_final_assign (tr : trace) : trace :=
  match tr with
  | [] => []
  | e :: rest =>
      if is_assign e && negb (existsb is_assign rest) then []
      else e :: before_final_assign rest
  end.

(** The log records among the steps. *)
Fixpoint logged (tr : trace) : list log_entry :=
  match tr with
  | [] => []
  | (EvLog lvl msg, _) :: rest => (lvl, msg) :: logged rest
  | _ :: rest => logged rest
  end.

End WithPlatform.

(** *** Attaching to the bus *)

Section WithBus.
Context {SC : Scalars} {PF : Platform} {BUS : Bus}.

Notation "x <- c ;; k" := (bind c (fun x => k))
  (at level 61, c at next level, right associativity).
Notation "c ;; k" := (bind c (fun _ => k))
  (at level 61, right associativity).

Definition set_i2c (b : bool) (s : t) : t :=
  mk (_log s) (_i2c_id s) (_i2c_address s) (_led s) b (_debug s)
     (_tx_count s) (_mem s) (_motor_controller s).

(** A call into the bus hardware. *)
Definition hardware (answer : result unit) : M unit :=
  fun s => (answer, s, []).

(** [self._mem = bytearray(self.MEMORY_SIZE)]: a fresh buffer, not a write
    into the old one. *)
Definition _clear_mem : M unit :=
  fun s => (Ok tt, set_mem (zeros MEMORY_SIZE) s, []).

Definition enable : M unit :=
  s <- get ;;
  if _i2c s then log Level.DEBUG "I2C slave already enabled."
  else
    log Level.INFO "starting I2C slave controller…" ;;
    hardware (I2CTarget_new (_i2c_id s) (_i2c_address s)) ;;
    (fun s => (Ok tt, set_i2c true s, [])) ;;
    hardware (I2CTarget_irq (Z.lor IRQ_END_READ IRQ_END_WRITE)) ;;
    log Level.INFO
      ("I2C slave enabled on address " ++ fmt_alt_04x (_i2c_address s) ++ ".") ;;
    log Level.INFO (Fore_WHITE ++ "I2C slave running; press Ctrl+C to stop.").

Definition disable : M unit :=
  s <- get ;;
  when (_i2c s)
    (_clear_mem ;;
     hardware I2CTarget_deinit ;;
     (fun s => (Ok tt, set_i2c false s, [])) ;;
     log Level.INFO "I2C slave disabled").

End WithBus.
End I2CSlave.

(** ** A concrete platform *)

(** A small platform on which the embedding runs: speeds are counted in
    tenths, a frame is a sync byte, a verb byte and four signed bytes. *)
Module Rig.

Definition esc (tail : string) : string := String (ascii_of_nat 27) tail.

#[export] Instance scalars : Scalars := {|
  float := Z;
  f0_0 := 0%Z;
  f0_3 := 3%Z;
  float_of_int := fun n => (10 * n)%Z;
  fmt_2f := str_int;
  code := byte;
  str_code := fun b => fmt_02x b
|}.

Definition SYNC : byte := x7a.

Definition verb_code (c : Command.t) : byte :=
  match c with
  | Command.PING => x01 | Command.STOP => x02 | Command.GO => x03
  | Command.REQUEST => x04 | Command.ENABLE => x05 | Command.DISABLE => x06
  | Command.ACK => x07 | Command.RESPONSE => x08 | Command.ERROR => x09
  end.

Definition verb_of_code (b : byte) : option Command.t :=
  match b with
  | x01 => Some Command.PING | x02 => Some Command.STOP
  | x03 => Some Command.GO | x04 => Some Command.REQUEST
  | x05 => Some Command.ENABLE | x06 => Some Command.DISABLE
  | x07 => Some Command.ACK | x08 => Some Command.RESPONSE
  | x09 => Some Command.ERROR | _ => None
  end.

(** A signed byte, two's complement. *)
Definition field_of_byte (b : byte) : Z :=
  let n := Z.of_N (Byte.to_N b) in
  if (n <? 128)%Z then n else (n - 256)%Z.

Definition byte_of_field (x : Z) : option byte :=
  if ((-128 <=? x) && (x <=? 127))%Z
  then Byte.of_N (Z.to_N (x mod 256))
  else None.

Definition decode (bs : list byte) : result Payload :=
  match bs with
  | [s; c; a; b; d; e] =>
      if Byte.eqb s SYNC
      then Ok (mkPayload (c : code) (field_of_byte a) (field_of_byte b)
                 (field_of_byte d) (field_of_byte e))
      else Raise (mkExc ValueError "invalid sync header")
  | _ => Raise (mkExc ValueError "invalid packet size")
  end.

Definition encode (p : Payload) : result (list byte) :=
  match byte_of_field (pfwd p), byte_of_field (sfwd p),
        byte_of_field (paft p), byte_of_field (saft p) with
  | Some a, Some b, Some d, Some e => Ok [SYNC; payload_code p; a; b; d; e]
  | _, _, _, _ => Raise (mkExc (OtherException "OverflowError") "value out of range")
  end.

(** Two upper-case hexadecimal digits behind [0x], for a 7-bit address. *)
Definition hex_upper (n : Z) : ascii :=
  match n with
  | 10 => "A" | 11 => "B" | 12 => "C" | 13 => "D" | 14 => "E" | 15 => "F"
  | _ => hex_digit (Z.to_N n)
  end%Z%char.

Definition hex_0x (n : Z) : string :=
  "0x" ++ String (hex_upper (n / 16)) (String (hex_upper (n mod 16)) "").

(** The command table is a dictionary keyed by code: a code it does not hold
    makes the lookup raise [KeyError]. *)
Definition lookup (b : byte) : result (option Command.t) :=
  match verb_of_code b with
  | Some c => Ok (Some c)
  | None => Raise (mkExc (OtherException "KeyError") (fmt_02x b))
  end.

(** Python's whitespace among the ASCII characters. *)
Definition is_space (c : ascii) : bool :=
  let n := nat_of_ascii c in
  ((9 <=? n) && (n <=? 13) || (28 <=? n) && (n <=? 32))%nat.

Fixpoint lstrip (s : string) : string :=
  match s with
  | String c rest => if is_space c then lstrip rest else s
  | EmptyString => EmptyString
  end.

Fixpoint rstrip (s : string) : string :=
  match s with
  | EmptyString => EmptyString
  | String c rest =>
      match rstrip rest with
      | EmptyString => if is_space c then EmptyString else String c EmptyString
      | kept => String c kept
      end
  end.

(** The value of a digit, letters standing for ten and more. *)
Definition digit_value (c : ascii) : option Z :=
  let n := Z.of_nat (nat_of_ascii c) in
  if ((48 <=? n) && (n <=? 57))%Z then Some (n - 48)%Z
  else if ((97 <=? n) && (n <=? 122))%Z then Some (n - 87)%Z
  else if ((65 <=? n) && (n <=? 90))%Z then Some (n - 55)%Z
  else None.

(** Digits in [base], with single underscores between them. *)
Fixpoint digits (base acc : Z) (after_digit : bool) (s : string) : option Z :=
  match s with
  | EmptyString => if after_digit then Some acc else None
  | String c rest =>
      if Ascii.eqb c "_" then
        if after_digit then digits base acc false rest else None
      else
        match digit_value c with
        | Some d =>
            if (d <? base)%Z then digits base (acc * base + d) true rest
            else None
        | None => None
        end
  end.

(** What follows a base prefix: one underscore may come first. *)
Definition prefixed (base : Z) (s : string) : option Z :=
  match s with
  | String c rest =>
      if Ascii.eqb c "_" then digits base 0 false rest
      else digits base 0 false s
  | EmptyString => None
  end.

(** A literal without its sign: a prefix tells the base, and a decimal
    literal that starts with a zero must be zero. *)
Definition magnitude (s : string) : option Z :=
  match s with
  | String "0" (String c rest) =>
      if Ascii.eqb c "x" || Ascii.eqb c "X" then prefixed 16 rest
      else if Ascii.eqb c "o" || Ascii.eqb c "O" then prefixed 8 rest
      else if Ascii.eqb c "b" || Ascii.eqb c "B" then prefixed 2 rest
      else
        match digits 10 0 false s with
        | Some 0%Z => Some 0%Z
        | _ => None
        end
  | _ => digits 10 0 false s
  end.

(** [int(s, 0)] on ASCII text: surrounding whitespace is dropped, a sign may
    come first, and the base is read off the literal. *)
Definition parse_int (s : string) : result Z :=
  let body := rstrip (lstrip s) in
  let signed :=
    match body with
    | String "-" rest => option_map Z.opp (magnitude rest)
    | String "+" rest => magnitude rest
    | _ => magnitude body
    end in
  match signed with
  | Some n => Ok n
  | None =>
      Raise (mkExc ValueError
               ("invalid literal for int() with base 0: '" ++ s ++ "'"))
  end.

#[export] Instance platform : Platform := {|
  PACKET_SIZE := 6;
  Command_code := verb_code;
  Command_from_code := lookup;
  Payload_from_bytes := decode;
  Payload_to_bytes := encode;
  str_payload := fun p => fmt_02x (payload_code p);
  IRQ_END_READ := 16;
  IRQ_END_WRITE := 32;
  int_of_str := parse_int;
  fmt_0x02X := hex_0x;
  Fore_RED := esc "[31m";
  Fore_GREEN := esc "[32m";
  Fore_BLUE := esc "[34m";
  Style_DIM := esc "[2m"
|}.

(** The same platform with an encoder that breaks down on PING frames. *)
Definition encode_faulty (p : Payload) : result (list byte) :=
  if Byte.eqb (payload_code p) (verb_code Command.PING)
  then Raise (mkExc (OtherException "RuntimeError") "encoder fault")
  else encode p.

Definition faulty : Platform := {|
  PACKET_SIZE := 6;
  Command_code := verb_code;
  Command_from_code := lookup;
  Payload_from_bytes := decode;
  Payload_to_bytes := encode_faulty;
  str_payload := fun p => fmt_02x (payload_code p);
  IRQ_END_READ := 16;
  IRQ_END_WRITE := 32;
  int_of_str := parse_int;
  fmt_0x02X := hex_0x;
  Fore_RED := esc "[31m";
  Fore_GREEN := esc "[32m";
  Fore_BLUE := esc "[34m";
  Style_DIM := esc "[2m"
|}.

(** A bus that takes 7-bit addresses only. *)
Definition open_target (id address : Z) : result unit :=
  if ((0 <=? address) && (address <? 128))%Z then Ok tt
  else Raise (mkExc ValueError "invalid I2C address").

#[export] Instance bus : Bus := {|
  I2CTarget_new := open_target;
  I2CTarget_irq := fun _ => Ok tt;
  I2CTarget_deinit := Ok tt;
  fmt_alt_04x := fun n =>
    "0x" ++ String (hex_digit (Z.to_N (n / 16)))
              (String (hex_digit (Z.to_N (n mod 16))) "");
  Fore_WHITE := esc "[37m"
|}.

Definition config : Config := mkConfig 1 (AddrStr "67").

(** A frame as the master sends it. *)
Definition frame (c : Command.t) (a b d e : byte) : list byte :=
  [SYNC; verb_code c; a; b; d; e].

(** What a bus scan leaves in the command window. *)
Definition probe : list byte := zeros 6.

(** The interrupt flags at the end of a write. *)
Definition wrote : Z := 32.

(** The object as [__init__] returns it for [config]. *)
Definition booted : I2CSlave.t :=
  I2CSlave.mk [(Level.INFO, "ready on bus 1 at 0x43")] 1 67 false false false 0
    (zeros 6 ++ [SYNC; verb_code Command.ACK; x00; x00; x00; x00])%list
    (MotorController.mk
       [(Level.INFO, "initialising motor controller…"); (Level.INFO, "ready.")]
       Component.Disabled 0%Z 0%Z 0%Z 0%Z false).

(** The same after ENABLE and GO(1.0, 1.0, -1.0, -1.0). *)
Definition moving : I2CSlave.t :=
  fold_left (I2CSlave.transact wrote)
    [frame Command.ENABLE x00 x00 x00 x00; frame Command.GO x0a x0a xf6 xf6]
    booted.


(** A platform whose encoder always breaks down. *)
Definition mute : Platform := {|
  PACKET_SIZE := 6;
  Command_code := verb_code;
  Command_from_code := lookup;
  Payload_from_bytes := decode;
  Payload_to_bytes :=
    fun _ => Raise (mkExc (OtherException "RuntimeError") "encoder fault");
  str_payload := fun p => fmt_02x (payload_code p);
  IRQ_END_READ := 16;
  IRQ_END_WRITE := 32;
  int_of_str := parse_int;
  fmt_0x02X := hex_0x;
  Fore_RED := esc "[31m";
  Fore_GREEN := esc "[32m";
  Fore_BLUE := esc "[34m";
  Style_DIM := esc "[2m"
|}.

(** A decoder that also wants the code of the frame to be a known one. *)
Definition decode_checked (bs : list byte) : result Payload :=
  match decode bs with
  | Ok p =>
      match verb_of_code (payload_code p) with
      | Some _ => Ok p
      | None => Raise (mkExc ValueError "invalid command code")
      end
  | Raise e => Raise e
  end.

Definition checked : Platform := {|
  PACKET_SIZE := 6;
  Command_code := verb_code;
  Command_from_code := lookup;
  Payload_from_bytes := decode_checked;
  Payload_to_bytes := encode;
  str_payload := fun p => fmt_02x (payload_code p);
  IRQ_END_READ := 16;
  IRQ_END_WRITE := 32;
  int_of_str := parse_int;
  fmt_0x02X := hex_0x;
  Fore_RED := esc "[31m";
  Fore_GREEN := esc "[32m";
  Fore_BLUE := esc "[34m";
  Style_DIM := esc "[2m"
|}.

(** A bus on which the handler cannot be registered. *)
Definition deaf_bus : Bus := {|
  I2CTarget_new := open_target;
  I2CTarget_irq :=
    fun _ => Raise (mkExc (OtherException "OSError") "irq not supported");
  I2CTarget_deinit := Ok tt;
  fmt_alt_04x := fmt_alt_04x;
  Fore_WHITE := esc "[37m"
|}.


(** [booted], attached to the bus. *)
Definition attached : I2CSlave.t :=
  I2CSlave.mk
    [(Level.INFO, "ready on bus 1 at 0x43");
     (Level.INFO, "starting I2C slave controller…");
     (Level.INFO, "I2C slave enabled on address 0x43.");
     (Level.INFO, esc "[37m" ++ "I2C slave running; press Ctrl+C to stop.")]
    1 67 false true false 0
    (zeros 6 ++ [SYNC; verb_code Command.ACK; x00; x00; x00; x00])%list
    (MotorController.mk
       [(Level.INFO, "initialising motor controller…"); (Level.INFO, "ready.")]
       Component.Disabled 0%Z 0%Z 0%Z 0%Z false).

(** An object configured with an address the bus does not take. *)
Definition misaddressed : I2CSlave.t :=
  I2CSlave.mk [] 1 200 false false false 0
    (zeros 6 ++ [SYNC; verb_code Command.ACK; x00; x00; x00; x00])%list
    (MotorController.mk
       [(Level.INFO, "initialising motor controller…"); (Level.INFO, "ready.")]
       Component.Disabled 0%Z 0%Z 0%Z 0%Z false).

End Rig.

(** * What the properties speak of *)

Import I2CSlave.
Local Open Scope list_scope.

(** ** States *)

Definition zero_speeds `{Scalars} : float * float * float * float :=
  (f0_0, f0_0, f0_0, f0_0).

(** A disabled controller holds zero speeds. *)
Definition at_rest `{Platform} (mc : MotorController.t) : Prop :=
  MotorController.enabled mc = false ->
  MotorController.get_speeds mc = zero_speeds.

(** Whether the command window decodes to a payload whose code the command
    table accepts. *)
Definition decodes `{Platform} (s : t) : bool :=
  match Payload_from_bytes (cmd_window (_mem s)) with
  | Ok p =>
      match Command_from_code (payload_code p) with
      | Ok _ => true
      | Raise _ => false
      end
  | Raise _ => false
  end.

(** A fault met before the dispatch: [e] is raised by the decoding of the
    command window, or by the lookup of the decoded code. *)
Definition fault_before_dispatch `{Platform} (s : t) (e : exc) : Prop :=
  Payload_from_bytes (cmd_window (_mem s)) = Raise e \/
  exists p,
    Payload_from_bytes (cmd_window (_mem s)) = Ok p /\
    Command_from_code (payload_code p) = Raise e.

(** ** Traces *)

(** How many steps of a trace assign to the buffer. *)
Definition assigns `{Platform} (tr : trace) : nat :=
  List.length (filter is_assign tr).

(** The snapshots of a trace started on buffer [m] follow its assignments,
    and every assignment starts at the response window. *)
Fixpoint coherent `{Platform} (m : list byte) (tr : trace) : Prop :=
  match tr with
  | [] => True
  | (ev, m') :: rest =>
      match ev with
      | EvAssign a b d => a = RSP_OFFSET /\ m' = slice_assign m a b d
      | _ => m' = m
      end /\ coherent m' rest
  end.

Definition last_mem `{Platform} (m : list byte) (tr : trace) : list byte :=
  last (map snd tr) m.

(** ** Method bodies *)

Section Vocabulary.
Context {SC : Scalars} {PF : Platform}.

(** The trace of [c] accounts for what [c] does to the buffer. *)
Definition tidy {A : Type} (c : M A) : Prop :=
  forall s,
    coherent (_mem s) (steps (c s)) /\
    _mem (final (c s)) = last_mem (_mem s) (steps (c s)).

(** [c] never raises. *)
Definition total {A : Type} (c : M A) : Prop :=
  forall s, exists a, outcome (c s) = Ok a.

(** [c] never assigns to the buffer. *)
Definition silent {A : Type} (c : M A) : Prop :=
  forall s, assigns (steps (c s)) = 0.

(** [c] assigns to the buffer once at most, and not at all when it raises. *)
Definition once {A : Type} (c : M A) : Prop :=
  forall s,
    assigns (steps (c s)) <= 1 /\
    (forall e, outcome (c s) = Raise e -> assigns (steps (c s)) = 0).

(** [c] leaves the counter, the indicator and the debug flag alone. *)
Definition steady {A : Type} (c : M A) : Prop :=
  forall s,
    _tx_count (final (c s)) = _tx_count s /\
    _led (final (c s)) = _led s /\
    _debug (final (c s)) = _debug s.

(** What follows the clearing of the response window when a write has
    ended. *)
Definition after_clear (flags : Z) : M unit :=
  bind (try_except process_command process_failed)
    (fun _ =>
       bind get
         (fun s =>
            when (_debug s)
              (when (negb (Z.land flags IRQ_END_READ =? 0)%Z)
                 (log Level.DEBUG "master read response")))).

End Vocabulary.

(** ** Frames *)

(** The encoder gives frames of the fixed size. *)
Definition well_sized `{Platform} : Prop :=
  forall p bs, Payload_to_bytes p = Ok bs -> List.length bs = PACKET_SIZE.

(** The verbs that the handler dispatches. *)
Definition dispatched (command : option Command.t) : bool :=
  match command with
  | Some Command.PING | Some Command.STOP | Some Command.GO
  | Some Command.REQUEST | Some Command.ENABLE | Some Command.DISABLE => true
  | _ => false
  end.

(** A step that, if it assigns to the buffer, assigns an encoded frame to the
    start of the response window. *)
Definition frame_assign `{Platform} (e : event * list byte) : Prop :=
  match fst e with
  | EvAssign a b d =>
      a = RSP_OFFSET /\ b = RSP_OFFSET + List.length d /\
      exists p, Payload_to_bytes p = Ok d
  | _ => True
  end.

(** [c] assigns nothing but encoded frames. *)
Definition framed `{Platform} {A : Type} (c : M A) : Prop :=
  forall s, Forall frame_assign (steps (c s)).

(** ** Counting *)

(** The two steps that count a transaction: the increment of the counter and
    the toggling of the indicator. *)
Definition is_count `{Platform} (e : event * list byte) : bool :=
  match fst e with
  | EvTxCount | EvLedToggle => true
  | _ => false
  end.

(** [c] neither counts nor toggles. *)
Definition uncounted `{Platform} {A : Type} (c : M A) : Prop :=
  forall s, existsb is_count (steps (c s)) = false.

(** The code that the [except] clauses of the handler pass to
    [_handle_error]. *)
Definition code_of_fault (e : exc) : Z :=
  if is_ValueError e then
    if negb (contains "invalid sync header" (str_exc e)) then 2 else 3
  else 4.

(** * Properties *)

Arguments slice_assign : simpl never.
Arguments slice : simpl never.
Arguments zeros : simpl never.
Arguments String.append : simpl never.
Arguments str_int : simpl never.
Arguments fmt_05d : simpl never.
Arguments join : simpl never.
Arguments contains : simpl never.
Arguments Payload_new : simpl never.

(** ** The motor controller *)

Lemma motor_init_at_rest `{Platform} (config : Config) :
  exists mc,
    MotorController.init (Some config) = Ok mc /\
    MotorController.enabled mc = false /\
    MotorController.get_speeds mc = zero_speeds.
Proof. eexists. repeat split. Qed.

Lemma motor_stop_disabled `{Platform} (mc : MotorController.t) :
  MotorController.enabled mc = false ->
  MotorController.stop mc = (Response.FAIL, mc).
Proof. intros E. unfold MotorController.stop. now rewrite E. Qed.

Lemma motor_go_disabled `{Platform} (mc : MotorController.t) a b c d :
  MotorController.enabled mc = false ->
  MotorController.go a b c d mc = (Response.FAIL, mc).
Proof. intros E. unfold MotorController.go. now rewrite E. Qed.

Lemma motor_stop_enabled `{Platform} (mc : MotorController.t) :
  MotorController.enabled mc = true ->
  fst (MotorController.stop mc) = Response.OKAY /\
  MotorController.get_speeds (snd (MotorController.stop mc)) = zero_speeds /\
  MotorController.enabled (snd (MotorController.stop mc)) = true.
Proof.
  intros E. unfold MotorController.stop. rewrite E.
  destruct mc as [lg comp a b c d dbg]. now destruct dbg.
Qed.

Lemma motor_go_enabled `{Platform} (mc : MotorController.t) a b c d :
  MotorController.enabled mc = true ->
  fst (MotorController.go a b c d mc) = Response.OKAY /\
  MotorController.get_speeds (snd (MotorController.go a b c d mc)) = (a, b, c, d) /\
  MotorController.enabled (snd (MotorController.go a b c d mc)) = true.
Proof.
  intros E. unfold MotorController.go. rewrite E.
  destruct mc as [lg comp x y z w dbg]. now destruct dbg.
Qed.

Lemma motor_enable_speeds `{Platform} (mc : MotorController.t) :
  MotorController.get_speeds (MotorController.enable mc) =
  MotorController.get_speeds mc.
Proof.
  destruct mc as [lg comp a b c d dbg].
  now destruct comp, dbg.
Qed.

Lemma motor_disable_disabled `{Platform} (mc : MotorController.t) :
  MotorController.enabled (MotorController.disable mc) = false /\
  MotorController.get_speeds (MotorController.disable mc) =
    (if MotorController.enabled mc then zero_speeds
     else MotorController.get_speeds mc).
Proof.
  destruct mc as [lg comp a b c d dbg].
  now destruct comp, dbg.
Qed.

Lemma step_at_rest `{Platform} (mc : MotorController.t) (o : MotorController.op) :
  at_rest mc -> at_rest (MotorController.step mc o).
Proof.
  unfold at_rest. destruct mc as [lg comp a b c d dbg].
  destruct o, comp, dbg; cbn; intros Hmc E;
    try discriminate; try reflexivity; auto.
Qed.

Lemma run_at_rest `{Platform} (ops : list MotorController.op) :
  forall mc, at_rest mc -> at_rest (MotorController.run ops mc).
Proof.
  induction ops as [|o ops IH]; intros mc Hmc.
  - exact Hmc.
  - apply (IH (MotorController.step mc o)). now apply step_at_rest.
Qed.

(** C5: a controller is constructed disabled with all four speeds zero, and
    in every state reached from construction by stop, go, enable, disable and
    close operations, a disabled controller stores four zero speeds; enabling
    it again leaves them zero. *)
Theorem disabled_controller_is_at_rest `{Platform}
    (config : Config) (mc0 : MotorController.t)
    (ops : list MotorController.op) :
  MotorController.init (Some config) = Ok mc0 ->
  MotorController.enabled mc0 = false /\
  MotorController.get_speeds mc0 = zero_speeds /\
  (MotorController.enabled (MotorController.run ops mc0) = false ->
   MotorController.get_speeds (MotorController.run ops mc0) = zero_speeds /\
   MotorController.get_speeds
     (MotorController.enable (MotorController.run ops mc0)) = zero_speeds).
Proof.
  intros Hinit. injection Hinit as <-.
  split; [reflexivity|]. split; [reflexivity|].
  intros E. rewrite motor_enable_speeds.
  assert (R : at_rest (MotorController.run ops
                (MotorController.mk
                   [(Level.INFO, "initialising motor controller…");
                    (Level.INFO, "ready.")]
                   (Component.init false) f0_0 f0_0 f0_0 f0_0 false))).
  { apply run_at_rest. intros _. reflexivity. }
  split; exact (R E).
Qed.

(** ** The shared buffer *)

Lemma zeros_length (n : nat) : List.length (zeros n) = n.
Proof. apply repeat_length. Qed.

Lemma slice_zeros (a b : nat) : slice (zeros (a + b)) 0 a = zeros a.
Proof.
  unfold slice, zeros. rewrite repeat_app, Nat.sub_0_r. simpl.
  rewrite firstn_app, repeat_length, Nat.sub_diag, firstn_all2
    by (rewrite repeat_length; lia).
  simpl. apply app_nil_r.
Qed.

Lemma slice_assign_length_ge (m : list byte) (start stop : nat) (data : list byte) :
  start <= List.length m ->
  start <= List.length (slice_assign m start stop data).
Proof.
  intros Hle. unfold slice_assign.
  rewrite !length_app, length_firstn. lia.
Qed.

Lemma slice_assign_length (m : list byte) (start : nat) (data : list byte) :
  start + List.length data <= List.length m ->
  List.length (slice_assign m start (start + List.length data) data)
  = List.length m.
Proof.
  intros Hle. unfold slice_assign.
  rewrite !length_app, length_firstn, length_skipn. lia.
Qed.

Lemma slice_assign_prefix (m : list byte) (start stop : nat) (data : list byte)
    (n : nat) :
  n <= start -> start <= List.length m ->
  slice (slice_assign m start stop data) 0 n = slice m 0 n.
Proof.
  intros Hn Hle. unfold slice, slice_assign. simpl.
  rewrite Nat.min_l by exact Hle. rewrite !Nat.sub_0_r.
  rewrite firstn_app, length_firstn, Nat.min_l by exact Hle.
  replace (n - start) with 0 by lia.
  rewrite firstn_firstn, Nat.min_l by exact Hn. simpl. apply app_nil_r.
Qed.

Lemma slice_assign_window (m : list byte) (start : nat) (data : list byte) :
  start <= List.length m ->
  slice (slice_assign m start (start + List.length data) data)
        start (start + List.length data) = data.
Proof.
  intros Hle. unfold slice, slice_assign.
  rewrite Nat.min_l by exact Hle.
  rewrite skipn_app, length_firstn, Nat.min_l by exact Hle.
  rewrite Nat.sub_diag, skipn_firstn_comm, Nat.sub_diag. simpl.
  replace (start + List.length data - start) with (List.length data) by lia.
  rewrite firstn_app, Nat.sub_diag, firstn_all. simpl. apply app_nil_r.
Qed.

(** Writing the command window leaves what follows it. *)
Lemma slice_assign_suffix (m frame : list byte) (n : nat) :
  List.length frame <= List.length m ->
  slice (slice_assign m 0 (0 + List.length frame) frame)
        (List.length frame) (List.length frame + n)
  = slice m (List.length frame) (List.length frame + n).
Proof.
  intros Hle. unfold slice, slice_assign. simpl.
  rewrite Nat.min_l by exact Hle.
  rewrite skipn_app, Nat.sub_diag, skipn_all. reflexivity.
Qed.

(** ** Running a method body *)

(** Unfolds a run down to the collaborators' answers. *)
Ltac run :=
  cbv beta iota zeta delta
    [_irq_handler bind try_except ret raise get when observe log when_debug
     mem_assign from_bytes from_code to_bytes motor get_speeds _send_response
     _handle_ping _handle_stop _handle_go _handle_request _handle_enable
     _handle_disable _handle_error process_command process_failed dispatch
     count_transaction led_toggle final outcome steps fst snd negb
     _log _i2c_id _i2c_address _led _i2c _debug _tx_count _mem
     _motor_controller set_log set_led set_tx_count set_mem
     set_motor_controller CMD_OFFSET RSP_OFFSET rsp_window cmd_window
     MotorController.get_speeds];
  change (0 + PACKET_SIZE) with PACKET_SIZE.

Ltac run_in H :=
  cbv beta iota zeta delta
    [final outcome steps fst snd
     _log _i2c_id _i2c_address _led _i2c _debug _tx_count _mem
     _motor_controller CMD_OFFSET RSP_OFFSET MEMORY_SIZE rsp_window cmd_window] in H;
  change (0 + PACKET_SIZE) with PACKET_SIZE in H.

(** C8: writing a response through [_send_response] leaves the command
    window as it was: for a buffer of [MEMORY_SIZE] bytes and a response that
    encodes to exactly [PACKET_SIZE] bytes, the bytes [0, PACKET_SIZE) are the
    same before and after the write, the response window holds the encoded
    frame, and the buffer keeps its size. *)
Theorem send_response_keeps_command_window `{Platform}
    (s : t) (c : Command.t) (f1 f2 f3 f4 : float) (bs : list byte) :
  List.length (_mem s) = MEMORY_SIZE ->
  Payload_to_bytes (Payload_new c f1 f2 f3 f4) = Ok bs ->
  List.length bs = PACKET_SIZE ->
  let s' := final (_send_response (ObjCommand c) f1 f2 f3 f4 s) in
  cmd_window (_mem s') = cmd_window (_mem s) /\
  rsp_window (_mem s') = bs /\
  List.length (_mem s') = MEMORY_SIZE.
Proof.
  intros Hm Hbs Hlen s'. subst s'.
  destruct s as [lg id ad led i2c dbg tx mem mc]. run_in Hm.
  run. rewrite Hbs. run. rewrite <- Hlen in *.
  destruct dbg; run.
  all: rewrite slice_assign_prefix, slice_assign_window, slice_assign_length
      by lia.
  all: repeat split; unfold MEMORY_SIZE; lia.
Qed.

(** C10: construction succeeds whenever the configured address normalises
    to an integer, and the object it returns already holds, in its response
    window, the encoded ACK frame with four zero fields (given that this frame
    encodes to [PACKET_SIZE] bytes); no command has been counted yet and the
    command window is still blank. *)
Theorem init_publishes_ack `{Platform}
    (cfg : Config) (address : Z) (bs : list byte) :
  address_of cfg = Ok address ->
  Payload_to_bytes (Payload_new Command.ACK f0_0 f0_0 f0_0 f0_0) = Ok bs ->
  List.length bs = PACKET_SIZE ->
  exists s,
    init (Some cfg) = Ok s /\
    rsp_window (_mem s) = bs /\
    cmd_window (_mem s) = zeros PACKET_SIZE /\
    List.length (_mem s) = MEMORY_SIZE /\
    _tx_count s = 0%Z.
Proof.
  intros Ha Hbs Hlen. unfold init. rewrite Ha.
  cbv beta iota delta [MotorController.init].
  run. rewrite Hbs. run. rewrite <- Hlen.
  assert (Hz : List.length bs <= List.length (zeros MEMORY_SIZE))
    by (rewrite zeros_length; unfold MEMORY_SIZE; lia).
  eexists. split; [reflexivity|]. run.
  rewrite slice_assign_prefix, slice_assign_window, slice_assign_length
    by (rewrite ?zeros_length; unfold MEMORY_SIZE; lia).
  rewrite zeros_length. unfold MEMORY_SIZE.
  replace (2 * PACKET_SIZE) with (List.length bs + List.length bs) by lia.
  rewrite slice_zeros. auto.
Qed.

(** ** Judgements on method bodies *)

Ltac proj := unfold outcome, final, steps in *; cbn [fst snd] in *.

Section Judgements.
Context {SC : Scalars} {PF : Platform}.

Lemma assigns_app (tr1 tr2 : trace) :
  assigns (tr1 ++ tr2) = assigns tr1 + assigns tr2.
Proof. unfold assigns. now rewrite filter_app, length_app. Qed.

Lemma last_mem_app (m : list byte) (tr1 tr2 : trace) :
  last_mem m (tr1 ++ tr2) = last_mem (last_mem m tr1) tr2.
Proof.
  unfold last_mem. rewrite map_app.
  induction (map snd tr2) as [|x l IH] using rev_ind.
  - now rewrite app_nil_r.
  - now rewrite app_assoc, !last_last.
Qed.

Lemma coherent_app (tr1 tr2 : trace) :
  forall m,
    coherent m tr1 -> coherent (last_mem m tr1) tr2 ->
    coherent m (tr1 ++ tr2).
Proof.
  induction tr1 as [|[ev m'] tr1 IH]; intros m H1 H2.
  - exact H2.
  - destruct H1 as [Hev H1]. split; [exact Hev|].
    apply IH; [exact H1|].
    change (last_mem m ((ev, m') :: tr1)) with (last_mem m ([(ev, m')] ++ tr1))
      in H2.
    now rewrite last_mem_app in H2.
Qed.

(** *** The monad *)

Lemma tidy_ret {A : Type} (a : A) : tidy (ret a).
Proof. intros s. now split. Qed.

Lemma tidy_raise {A : Type} (e : exc) : tidy (@raise _ A e).
Proof. intros s. now split. Qed.

Lemma tidy_get : tidy get.
Proof. intros s. now split. Qed.

Lemma tidy_bind {A B : Type} (c : M A) (k : A -> M B) :
  tidy c -> (forall a, tidy (k a)) -> tidy (bind c k).
Proof.
  intros Hc Hk s. specialize (Hc s). unfold bind.
  destruct (c s) as [[[a|e] s1] tr1]; proj; [|exact Hc].
  specialize (Hk a s1). destruct (k a s1) as [[r s2] tr2]; proj.
  destruct Hc as [Hc1 Hc2], Hk as [Hk1 Hk2]. rewrite Hc2 in *.
  split; [now apply coherent_app|]. now rewrite last_mem_app.
Qed.

Lemma tidy_try_except {A : Type} (body : M A) (handler : exc -> M A) :
  tidy body -> (forall e, tidy (handler e)) -> tidy (try_except body handler).
Proof.
  intros Hc Hk s. specialize (Hc s). unfold try_except.
  destruct (body s) as [[[a|e] s1] tr1]; proj; [exact Hc|].
  specialize (Hk e s1). destruct (handler e s1) as [[r s2] tr2]; proj.
  destruct Hc as [Hc1 Hc2], Hk as [Hk1 Hk2]. rewrite Hc2 in *.
  split; [now apply coherent_app|]. now rewrite last_mem_app.
Qed.

Lemma tidy_when (b : bool) (c : M unit) : tidy c -> tidy (when b c).
Proof. destruct b; [trivial|intros _; apply tidy_ret]. Qed.

Lemma total_ret {A : Type} (a : A) : total (ret a).
Proof. intros s. now exists a. Qed.

Lemma total_get : total get.
Proof. intros s. now exists s. Qed.

Lemma total_bind {A B : Type} (c : M A) (k : A -> M B) :
  total c -> (forall a, total (k a)) -> total (bind c k).
Proof.
  intros Hc Hk s. destruct (Hc s) as [a Ha]. unfold bind.
  destruct (c s) as [[r s1] tr1]; proj; subst r.
  destruct (Hk a s1) as [b Hb]. exists b.
  now destruct (k a s1) as [[r s2] tr2].
Qed.

Lemma total_try_except {A : Type} (body : M A) (handler : exc -> M A) :
  (forall e, total (handler e)) -> total (try_except body handler).
Proof.
  intros Hk s. unfold try_except.
  destruct (body s) as [[[a|e] s1] tr1]; [now exists a|].
  destruct (Hk e s1) as [b Hb]. exists b.
  now destruct (handler e s1) as [[r s2] tr2].
Qed.

Lemma total_when (b : bool) (c : M unit) : total c -> total (when b c).
Proof. destruct b; [trivial|intros _; apply total_ret]. Qed.

Lemma silent_ret {A : Type} (a : A) : silent (ret a).
Proof. now intros s. Qed.

Lemma silent_raise {A : Type} (e : exc) : silent (@raise _ A e).
Proof. now intros s. Qed.

Lemma silent_get : silent get.
Proof. now intros s. Qed.

Lemma silent_bind {A B : Type} (c : M A) (k : A -> M B) :
  silent c -> (forall a, silent (k a)) -> silent (bind c k).
Proof.
  intros Hc Hk s. specialize (Hc s). unfold bind.
  destruct (c s) as [[[a|e] s1] tr1]; proj; [|exact Hc].
  specialize (Hk a s1). destruct (k a s1) as [[r s2] tr2]; proj.
  rewrite assigns_app. lia.
Qed.

Lemma silent_when (b : bool) (c : M unit) : silent c -> silent (when b c).
Proof. destruct b; [trivial|intros _; apply silent_ret]. Qed.

Lemma once_silent {A : Type} (c : M A) : silent c -> once c.
Proof. intros Hc s. rewrite (Hc s). split; [lia|reflexivity]. Qed.

(** Silent steps may come before an assignment... *)
Lemma once_after {A B : Type} (c : M A) (k : A -> M B) :
  silent c -> (forall a, once (k a)) -> once (bind c k).
Proof.
  intros Hc Hk s. specialize (Hc s). unfold bind.
  destruct (c s) as [[[a|e] s1] tr1]; proj.
  - specialize (Hk a s1). destruct (k a s1) as [[r s2] tr2]; proj.
    rewrite assigns_app, Hc. exact Hk.
  - split; [lia|intros _ _; exact Hc].
Qed.

(** ... and after it, as long as they cannot raise. *)
Lemma once_before {A B : Type} (c : M A) (k : A -> M B) :
  once c -> (forall a, silent (k a)) -> (forall a, total (k a)) ->
  once (bind c k).
Proof.
  intros Hc Hk Ht s. specialize (Hc s). unfold bind.
  destruct (c s) as [[[a|e] s1] tr1]; proj;
    [|split; [apply Hc|intros _ _; now apply (proj2 Hc e)]].
  specialize (Hk a s1). destruct (Ht a s1) as [b Hb].
  destruct (k a s1) as [[r s2] tr2]; proj. subst r.
  rewrite assigns_app, Hk, Nat.add_0_r.
  split; [apply Hc|discriminate].
Qed.

Lemma once_try_except {A : Type} (body : M A) (handler : exc -> M A) :
  once body -> (forall e, once (handler e)) -> once (try_except body handler).
Proof.
  intros Hc Hk s. specialize (Hc s). unfold try_except.
  destruct (body s) as [[[a|e] s1] tr1]; proj; [exact Hc|].
  specialize (Hk e s1). destruct (handler e s1) as [[r s2] tr2]; proj.
  destruct Hc as [_ Hc]. rewrite assigns_app, (Hc e eq_refl). exact Hk.
Qed.

(** *** The effects *)

Lemma tidy_observe (ev : event) :
  (forall a b d, ev <> EvAssign a b d) -> tidy (observe ev).
Proof.
  intros Hev s. split; [|reflexivity]. cbn.
  destruct ev; try easy. now destruct (Hev start stop data).
Qed.

Lemma tidy_log (lvl : Level.t) (msg : string) : tidy (log lvl msg).
Proof. intros s. now split. Qed.

Lemma tidy_when_debug (lvl : Level.t) (msg : t -> string) :
  tidy (when_debug lvl msg).
Proof.
  apply tidy_bind; [apply tidy_get|]. intros s. apply tidy_when, tidy_log.
Qed.

Lemma tidy_mem_assign (stop : nat) (data : list byte) :
  tidy (mem_assign RSP_OFFSET stop data).
Proof. intros s. now split. Qed.

Lemma tidy_from_bytes (bs : list byte) : tidy (from_bytes bs).
Proof. intros s. now split. Qed.

Lemma tidy_from_code (c : code) : tidy (from_code c).
Proof. intros s. now split. Qed.

Lemma tidy_to_bytes (p : Payload) : tidy (to_bytes p).
Proof. intros s. now split. Qed.

Lemma tidy_motor {A : Type} (call : motor_call)
    (method : MotorController.t -> A * MotorController.t) :
  tidy (motor call method).
Proof.
  intros s. unfold motor. now destruct (method (_motor_controller s)).
Qed.

Lemma tidy_count_transaction : tidy count_transaction.
Proof. intros s. now split. Qed.

Lemma tidy_led_toggle : tidy led_toggle.
Proof. intros s. now split. Qed.

Lemma total_observe (ev : event) : total (observe ev).
Proof. intros s. now exists tt. Qed.

Lemma total_log (lvl : Level.t) (msg : string) : total (log lvl msg).
Proof. intros s. now exists tt. Qed.

Lemma total_when_debug (lvl : Level.t) (msg : t -> string) :
  total (when_debug lvl msg).
Proof.
  apply total_bind; [apply total_get|]. intros s. apply total_when, total_log.
Qed.

Lemma total_mem_assign (start stop : nat) (data : list byte) :
  total (mem_assign start stop data).
Proof. intros s. now exists tt. Qed.

Lemma total_motor {A : Type} (call : motor_call)
    (method : MotorController.t -> A * MotorController.t) :
  total (motor call method).
Proof.
  intros s. unfold motor. destruct (method (_motor_controller s)) as [a mc].
  now exists a.
Qed.

Lemma total_count_transaction : total count_transaction.
Proof. intros s. now exists tt. Qed.

Lemma total_led_toggle : total led_toggle.
Proof. intros s. now exists tt. Qed.

Lemma silent_observe (ev : event) :
  (forall a b d, ev <> EvAssign a b d) -> silent (observe ev).
Proof.
  intros Hev s. cbn. destruct ev; try easy. now destruct (Hev start stop data).
Qed.

Lemma silent_log (lvl : Level.t) (msg : string) : silent (log lvl msg).
Proof. now intros s. Qed.

Lemma silent_when_debug (lvl : Level.t) (msg : t -> string) :
  silent (when_debug lvl msg).
Proof.
  apply silent_bind; [apply silent_get|]. intros s. apply silent_when, silent_log.
Qed.

Lemma silent_from_bytes (bs : list byte) : silent (from_bytes bs).
Proof. now intros s. Qed.

Lemma silent_from_code (c : code) : silent (from_code c).
Proof. now intros s. Qed.

Lemma silent_to_bytes (p : Payload) : silent (to_bytes p).
Proof. now intros s. Qed.

Lemma silent_motor {A : Type} (call : motor_call)
    (method : MotorController.t -> A * MotorController.t) :
  silent (motor call method).
Proof.
  intros s. unfold motor. now destruct (method (_motor_controller s)).
Qed.

Lemma silent_count_transaction : silent count_transaction.
Proof. now intros s. Qed.

Lemma silent_led_toggle : silent led_toggle.
Proof. now intros s. Qed.

Lemma once_mem_assign (start stop : nat) (data : list byte) :
  once (mem_assign start stop data).
Proof. intros s. cbn. split; [lia|discriminate]. Qed.

End Judgements.

(** *** The methods *)

Section Methods.
Context {SC : Scalars} {PF : Platform}.

Ltac judge_step :=
  first
    [ apply tidy_bind | apply tidy_try_except | apply tidy_when
    | apply tidy_ret | apply tidy_raise | apply tidy_get | apply tidy_log
    | apply tidy_when_debug | apply tidy_mem_assign | apply tidy_from_bytes
    | apply tidy_from_code | apply tidy_to_bytes | apply tidy_motor
    | apply tidy_count_transaction | apply tidy_led_toggle
    | apply tidy_observe; discriminate
    | apply total_bind | apply total_try_except | apply total_when
    | apply total_ret | apply total_get | apply total_log
    | apply total_when_debug | apply total_mem_assign | apply total_motor
    | apply total_count_transaction | apply total_led_toggle
    | apply total_observe
    | apply silent_bind | apply silent_when
    | apply silent_ret | apply silent_raise | apply silent_get
    | apply silent_log | apply silent_when_debug | apply silent_from_bytes
    | apply silent_from_code | apply silent_to_bytes | apply silent_motor
    | apply silent_count_transaction | apply silent_led_toggle
    | apply silent_observe; discriminate
    | intro ].

Ltac judge := repeat judge_step.

Lemma tidy_send_response (command : pyobj) (a b c d : float) :
  tidy (_send_response command a b c d).
Proof. unfold _send_response. destruct command; judge. Qed.

Lemma total_send_response (command : pyobj) (a b c d : float) :
  total (_send_response command a b c d).
Proof. unfold _send_response. judge. Qed.

Lemma once_send_response (command : pyobj) (a b c d : float) :
  once (_send_response command a b c d).
Proof.
  unfold _send_response. apply once_try_except.
  - destruct command as [cmd|name].
    + apply once_after; [judge|]. intros bs.
      apply once_before; [apply once_mem_assign| |]; judge.
    + apply once_silent. judge.
  - intros e. apply once_silent. judge.
Qed.

Ltac handler J :=
  repeat first
    [ apply J
    | match goal with
      | |- _ (match ?x with Response.OKAY => _ | Response.FAIL => _ end) =>
          destruct x
      | |- _ (match ?x with (_, _) => _ end) => destruct x
      | |- _ (match ?x with Some _ => _ | None => _ end) => destruct x
      | |- _ (match ?x with Command.PING => _ | _ => _ end) => destruct x
      | |- _ (if ?x then _ else _) => destruct x
      end
    | judge_step ].

Lemma tidy_handle_error (n : Z) (msg : string) : tidy (_handle_error n msg).
Proof. unfold _handle_error. handler tidy_send_response. Qed.

Lemma total_handle_error (n : Z) (msg : string) : total (_handle_error n msg).
Proof. unfold _handle_error. handler total_send_response. Qed.

Lemma once_handle_error (n : Z) (msg : string) : once (_handle_error n msg).
Proof.
  unfold _handle_error. apply once_after; [judge|].
  intros _. apply once_send_response.
Qed.

Lemma tidy_process_command : tidy process_command.
Proof.
  unfold process_command, dispatch, _handle_ping, _handle_stop, _handle_go,
    _handle_request, _handle_enable, _handle_disable, get_speeds.
  handler tidy_handle_error; handler tidy_send_response.
Qed.

Lemma total_dispatch (command : option Command.t) (p : Payload) :
  total (dispatch command p).
Proof.
  unfold dispatch, _handle_ping, _handle_stop, _handle_go,
    _handle_request, _handle_enable, _handle_disable, get_speeds.
  handler total_handle_error; handler total_send_response.
Qed.

Lemma once_dispatch (command : option Command.t) (p : Payload) :
  once (dispatch command p).
Proof.
  unfold dispatch, _handle_ping, _handle_stop, _handle_go,
    _handle_request, _handle_enable, _handle_disable, get_speeds.
  destruct command as [[]|]; try apply once_handle_error;
    repeat (apply once_after; [judge|]; intros;
            repeat match goal with
                   | |- once (match ?x with _ => _ end) => destruct x
                   end);
    apply once_send_response.
Qed.

Lemma once_process_command : once process_command.
Proof.
  unfold process_command.
  apply once_after; [judge|]. intros s.
  apply once_after; [judge|]. intros p.
  apply once_after; [judge|]. intros _.
  apply once_after; [judge|]. intros command.
  apply once_before; [apply (once_dispatch command p)| |]; judge.
Qed.

Lemma tidy_process_failed (e : exc) : tidy (process_failed e).
Proof. unfold process_failed. handler tidy_handle_error. Qed.

Lemma total_process_failed (e : exc) : total (process_failed e).
Proof. unfold process_failed. handler total_handle_error. Qed.

Lemma once_process_failed (e : exc) : once (process_failed e).
Proof.
  unfold process_failed.
  destruct (is_ValueError e); [destruct (negb _)|];
    (apply once_after; [judge|]; intros _);
    first [ apply once_handle_error
          | apply once_after; [judge|]; intros _; apply once_handle_error ].
Qed.

Lemma tidy_after_clear (flags : Z) : tidy (after_clear flags).
Proof.
  unfold after_clear. apply tidy_bind.
  - apply tidy_try_except;
      [apply tidy_process_command|apply tidy_process_failed].
  - judge.
Qed.

Lemma once_after_clear (flags : Z) : once (after_clear flags).
Proof.
  unfold after_clear. apply once_before.
  - apply once_try_except;
      [apply once_process_command|apply once_process_failed].
  - judge.
  - judge.
Qed.

Lemma total_irq_handler (flags : Z) : total (_irq_handler flags).
Proof.
  unfold _irq_handler. apply total_bind; [|judge].
  apply total_when, total_bind; [judge|]. intros _.
  apply total_try_except, total_process_failed.
Qed.

Lemma tidy_irq_handler (flags : Z) : tidy (_irq_handler flags).
Proof.
  unfold _irq_handler. apply tidy_bind; [|judge].
  apply tidy_when, tidy_bind; [judge|]. intros _.
  apply tidy_try_except;
    [apply tidy_process_command|apply tidy_process_failed].
Qed.

(** The handler, when a write has ended: the clearing, then the rest. *)
Lemma irq_handler_end_of_write (flags : Z) (s : t) :
  end_of_write flags ->
  let m0 :=
    slice_assign (_mem s) RSP_OFFSET (RSP_OFFSET + PACKET_SIZE)
      (zeros PACKET_SIZE) in
  let r := after_clear flags (set_mem m0 s) in
  _irq_handler flags s =
    (outcome r, final r,
     (EvAssign RSP_OFFSET (RSP_OFFSET + PACKET_SIZE) (zeros PACKET_SIZE), m0)
       :: steps r).
Proof.
  intros Hf m0 r. subst r. apply Z.eqb_neq in Hf.
  unfold _irq_handler, after_clear. rewrite Hf.
  cbv beta iota delta [negb when].
  unfold bind, mem_assign, get, outcome, final, steps. cbn [fst snd]. fold m0.
  destruct (try_except process_command process_failed (set_mem m0 s))
    as [[[[]|e] s1] tr1]; cbn [fst snd]; [|reflexivity].
  match goal with
  | |- context [?c s1] => destruct (c s1) as [[r s2] tr2]
  end.
  reflexivity.
Qed.

End Methods.

(** ** The response window during a command *)

Lemma no_assign_in `{Platform} (tr : trace) :
  assigns tr = 0 -> existsb is_assign tr = false.
Proof.
  unfold assigns. induction tr as [|e tr IH]; [reflexivity|].
  cbn. destruct (is_assign e); cbn; [discriminate|exact IH].
Qed.

Lemma still_before_final_assign `{Platform} (tr : trace) :
  forall m,
    coherent m tr -> assigns tr <= 1 ->
    Forall (fun e => snd e = m) (before_final_assign tr).
Proof.
  induction tr as [|[ev m'] tr IH]; intros m Hc Ha; [constructor|].
  destruct Hc as [Hev Hc]. cbn [before_final_assign].
  unfold assigns in Ha. cbn [filter] in Ha.
  destruct (is_assign (ev, m')) eqn:E.
  - cbn [List.length] in Ha.
    rewrite no_assign_in by (unfold assigns; lia). constructor.
  - cbn [andb]. destruct ev; try discriminate E; cbn [snd] in *; subst m';
      (constructor; [reflexivity|now apply IH]).
Qed.

Lemma cleared_window `{Platform} (m : list byte) :
  PACKET_SIZE <= List.length m ->
  rsp_window
    (slice_assign m RSP_OFFSET (RSP_OFFSET + PACKET_SIZE) (zeros PACKET_SIZE))
  = zeros PACKET_SIZE.
Proof.
  intros Hm.
  pose proof (slice_assign_window m PACKET_SIZE (zeros PACKET_SIZE) Hm) as W.
  rewrite zeros_length in W. exact W.
Qed.

Lemma quiet_trace_keeps_buffer `{Platform} (tr : trace) :
  forall m, coherent m tr -> assigns tr = 0 -> last_mem m tr = m.
Proof.
  induction tr as [|[ev m'] tr IH]; intros m Hc Ha; [reflexivity|].
  destruct Hc as [Hev Hc].
  change (last_mem m ((ev, m') :: tr)) with (last_mem m ([(ev, m')] ++ tr)).
  rewrite last_mem_app. change (last_mem m [(ev, m')]) with m'.
  unfold assigns in Ha. cbn [filter] in Ha.
  destruct ev; try discriminate Ha; cbn [fst] in Hev; subst m';
    now apply IH.
Qed.

(** C1: when a write has ended, the first thing the handler does, before it
    decodes or dispatches anything, is to assign zeros to the whole response
    window of the buffer it holds; after that it assigns to the buffer once
    at most, and at every step from the clearing up to that last assignment
    a bus read finds the response window all zero.  The steps are those of
    the object itself: every snapshot is the buffer as the assignments so
    far have left it, starting from the buffer before the interrupt, and
    the last one is the buffer of the object when the handler returns; the
    decoding and the dispatch run on the object whose buffer has been
    cleared, and when no response is written, the buffer is still the
    cleared one when the handler returns. *)
Theorem response_window_zero_until_reply `{Platform} (s : t) (flags : Z) :
  PACKET_SIZE <= List.length (_mem s) ->
  end_of_write flags ->
  let r := _irq_handler flags s in
  exists m0 rest,
    steps r =
      (EvAssign RSP_OFFSET (RSP_OFFSET + PACKET_SIZE) (zeros PACKET_SIZE), m0)
        :: rest /\
    rsp_window m0 = zeros PACKET_SIZE /\
    assigns rest <= 1 /\
    Forall (fun e => rsp_window (snd e) = zeros PACKET_SIZE)
      (before_final_assign rest) /\
    m0 = slice_assign (_mem s) RSP_OFFSET (RSP_OFFSET + PACKET_SIZE)
           (zeros PACKET_SIZE) /\
    rest = steps (after_clear flags (set_mem m0 s)) /\
    final r = final (after_clear flags (set_mem m0 s)) /\
    coherent (_mem s) (steps r) /\
    _mem (final r) = last_mem (_mem s) (steps r) /\
    (assigns rest = 0 -> _mem (final r) = m0).
Proof.
  intros Hm Hf r. subst r.
  destruct (tidy_irq_handler flags s) as [Hco Hlast].
  rewrite (irq_handler_end_of_write flags s Hf) in *.
  set (m0 := slice_assign _ _ _ _) in *.
  exists m0, (steps (after_clear flags (set_mem m0 s))).
  split; [reflexivity|].
  assert (Hz : rsp_window m0 = zeros PACKET_SIZE) by now apply cleared_window.
  split; [exact Hz|].
  destruct (once_after_clear flags (set_mem m0 s)) as [Ha _].
  split; [exact Ha|].
  destruct (tidy_after_clear flags (set_mem m0 s)) as [Hc Hl].
  split.
  { eapply Forall_impl; [|exact (still_before_final_assign _ _ Hc Ha)].
    intros e He. cbn in He. now rewrite He. }
  split; [reflexivity|].
  split; [reflexivity|].
  split; [reflexivity|].
  split; [exact Hco|].
  split; [exact Hlast|].
  intros Hq. proj. rewrite Hl. cbn [_mem set_mem].
  now apply quiet_trace_keeps_buffer.
Qed.

(** ** Single commands *)

(** Takes the state apart and puts the hypotheses about it in the shape in
    which [run] leaves the goal. *)
Ltac open_state s :=
  destruct s as [lg id ad led i2c dbg tx mem mc];
  repeat match goal with
         | H : end_of_write _ |- _ => apply Z.eqb_neq in H
         | H : context [cmd_window] |- _ => run_in H
         | H : context [_mem] |- _ => run_in H
         | H : context [_motor_controller] |- _ => run_in H
         end.

(** Runs the handler up to the decoding of the command window. *)
Ltac enter :=
  match goal with
  | Hf : (Z.land _ IRQ_END_WRITE =? 0)%Z = false |- _ =>
      unfold _irq_handler; rewrite Hf; run;
      rewrite slice_assign_prefix by lia
  end.

(** Settles the optional debug record about the end of a read. *)
Ltac leave :=
  try match goal with
      | |- context [(Z.land ?f IRQ_END_READ =? 0)%Z] =>
          destruct (Z.land f IRQ_END_READ =? 0)%Z; run
      end.

(** C9: a PING command is answered by the encoded PING frame whose four
    fields are the literal 0.3, and handling it calls no method of the motor
    controller and leaves the controller as it was. *)
Theorem ping_is_answered_with_ping `{Platform}
    (s : t) (flags : Z) (p : Payload) (bs : list byte) :
  PACKET_SIZE <= List.length (_mem s) ->
  end_of_write flags ->
  Payload_from_bytes (cmd_window (_mem s)) = Ok p ->
  Command_from_code (payload_code p) = Ok (Some Command.PING) ->
  Payload_to_bytes (Payload_new Command.PING f0_3 f0_3 f0_3 f0_3) = Ok bs ->
  List.length bs = PACKET_SIZE ->
  let r := _irq_handler flags s in
  outcome r = Ok tt /\
  rsp_window (_mem (final r)) = bs /\
  _motor_controller (final r) = _motor_controller s /\
  existsb is_motor (steps r) = false.
Proof.
  intros Hm Hf Hp Hc Hbs Hlen r. subst r. open_state s.
  enter. rewrite Hp. run. rewrite Hc. 
  destruct dbg; run; rewrite Hbs; run; leave.
  all: rewrite <- Hlen; rewrite slice_assign_window
    by (apply slice_assign_length_ge; lia); auto.
Qed.

(** ** Sequences of commands *)

Lemma coherent_length `{Platform} (tr : trace) :
  forall m,
    coherent m tr -> PACKET_SIZE <= List.length m ->
    PACKET_SIZE <= List.length (last_mem m tr).
Proof.
  induction tr as [|[ev m'] tr IH]; intros m Hc Hm; [exact Hm|].
  destruct Hc as [Hev Hc].
  change (last_mem m ((ev, m') :: tr)) with (last_mem m ([(ev, m')] ++ tr)).
  rewrite last_mem_app. apply IH; [exact Hc|].
  destruct ev; try (subst m'; exact Hm).
  destruct Hev as [-> ->]. now apply slice_assign_length_ge.
Qed.

(** The handler never shortens the buffer below its command window. *)
Lemma irq_handler_buffer `{Platform} (s : t) (flags : Z) :
  PACKET_SIZE <= List.length (_mem s) ->
  PACKET_SIZE <= List.length (_mem (final (_irq_handler flags s))).
Proof.
  intros Hm. destruct (tidy_irq_handler flags s) as [Hc ->].
  now apply coherent_length.
Qed.

Lemma master_write_cmd_window `{Platform} (s : t) (frame : list byte) :
  List.length frame = PACKET_SIZE ->
  PACKET_SIZE <= List.length (_mem s) ->
  cmd_window (_mem (master_write frame s)) = frame /\
  PACKET_SIZE <= List.length (_mem (master_write frame s)) /\
  _motor_controller (master_write frame s) = _motor_controller s.
Proof.
  intros Hf Hm. destruct s as [lg id ad led i2c dbg tx mem mc].
  unfold master_write, cmd_window, CMD_OFFSET. cbn in *.
  rewrite <- Hf in *. split; [|split; [|reflexivity]].
  - apply (slice_assign_window mem 0 frame). lia.
  - unfold slice_assign. rewrite !length_app, length_skipn. cbn. lia.
Qed.

(** Runs as far as the collaborators allow, splitting on their answers in
    the order in which the method meets them. *)
Ltac crunch_step :=
  first
    [ match goal with
      | |- context [if ?x then _ else _] => is_var x; destruct x
      end
    | match goal with
      | |- context [if (Z.land ?f ?k =? 0)%Z then _ else _] =>
          destruct (Z.land f k =? 0)%Z
      end
    | match goal with
      | |- context [match Payload_from_bytes ?b with _ => _ end] =>
          destruct (Payload_from_bytes b)
      end
    | match goal with
      | |- context [match Command_from_code ?c with _ => _ end] =>
          destruct (Command_from_code c) as [[[]|]|]
      end
    | match goal with
      | |- context [if is_ValueError ?e then _ else _] =>
          destruct (is_ValueError e)
      end
    | match goal with
      | |- context [if contains ?a ?b then _ else _] =>
          destruct (contains a b)
      end
    | match goal with
      | |- context [match Payload_to_bytes ?p with _ => _ end] =>
          destruct (Payload_to_bytes p)
      end ].

Ltac crunch := run; repeat (crunch_step; run).

Lemma other_frames_keep_speeds `{Platform} (s : t) (flags : Z) :
  PACKET_SIZE <= List.length (_mem s) ->
  keeps_speeds (cmd_window (_mem s)) = true ->
  MotorController.get_speeds (_motor_controller (final (_irq_handler flags s)))
  = MotorController.get_speeds (_motor_controller s).
Proof.
  intros Hm Hk. open_state s. unfold keeps_speeds, verb_of in Hk. run_in Hk.
  unfold _irq_handler.
  destruct (Z.land flags IRQ_END_WRITE =? 0)%Z; run.
  { crunch; reflexivity. }
  rewrite slice_assign_prefix by lia.
  destruct (Payload_from_bytes (slice mem 0 PACKET_SIZE)) as [p|e].
  - run.
    destruct (Command_from_code (payload_code p)) as [[[]|]|e];
      try discriminate Hk; destruct dbg.
    all: crunch; try reflexivity.
    all: destruct mc as [? [] ? ? ? ? []]; reflexivity.
  - crunch; reflexivity.
Qed.

(** Unfolds the methods of the motor controller on a controller that has been
    taken apart. *)
Ltac run_motor :=
  cbv beta iota zeta delta
    [MotorController.stop MotorController.go MotorController.enable
     MotorController.disable MotorController.enabled MotorController.closed
     MotorController.log_if_debug MotorController.log
     MotorController.set_speeds MotorController.set_component
     MotorController.get_speeds
     MotorController._log MotorController._component MotorController._pfwd
     MotorController._sfwd MotorController._paft MotorController._saft
     MotorController._debug Component.enabled Component.enable
     Component.disable negb fst snd].

Ltac open_motor mc :=
  destruct mc as [mlg comp v1 v2 v3 v4 mdbg];
  repeat match goal with
         | H : context [MotorController.enabled] |- _ =>
             cbv [MotorController.enabled MotorController._component
                  Component.enabled] in H
         | H : context [MotorController.get_speeds] |- _ =>
             cbv [MotorController.get_speeds MotorController._pfwd
                  MotorController._sfwd MotorController._paft
                  MotorController._saft] in H
         end;
  destruct comp; try discriminate.

Lemma go_is_acknowledged `{Platform}
    (s : t) (flags : Z) (p : Payload) (ack : list byte) :
  PACKET_SIZE <= List.length (_mem s) ->
  end_of_write flags ->
  Payload_from_bytes (cmd_window (_mem s)) = Ok p ->
  Command_from_code (payload_code p) = Ok (Some Command.GO) ->
  MotorController.enabled (_motor_controller s) = true ->
  Payload_to_bytes
    (Payload_new Command.ACK (pfwd p) (sfwd p) (paft p) (saft p)) = Ok ack ->
  List.length ack = PACKET_SIZE ->
  let s' := final (_irq_handler flags s) in
  rsp_window (_mem s') = ack /\
  MotorController.get_speeds (_motor_controller s')
    = (pfwd p, sfwd p, paft p, saft p) /\
  MotorController.enabled (_motor_controller s') = true.
Proof.
  intros Hm Hf Hp Hc He Hack Hlen s'. subst s'. open_state s. open_motor mc.
  enter. rewrite Hp. run. rewrite Hc.
  destruct dbg, mdbg; run; run_motor; run; rewrite Hack; run; leave.
  all: rewrite <- Hlen; rewrite slice_assign_window
    by (apply slice_assign_length_ge; lia); auto.
Qed.

Lemma request_reports_speeds `{Platform}
    (s : t) (flags : Z) (p : Payload) (a b c d : float) (rsp : list byte) :
  PACKET_SIZE <= List.length (_mem s) ->
  end_of_write flags ->
  Payload_from_bytes (cmd_window (_mem s)) = Ok p ->
  Command_from_code (payload_code p) = Ok (Some Command.REQUEST) ->
  MotorController.get_speeds (_motor_controller s) = (a, b, c, d) ->
  Payload_to_bytes (Payload_new Command.RESPONSE a b c d) = Ok rsp ->
  List.length rsp = PACKET_SIZE ->
  let s' := final (_irq_handler flags s) in
  rsp_window (_mem s') = rsp /\
  MotorController.get_speeds (_motor_controller s') = (a, b, c, d).
Proof.
  intros Hm Hf Hp Hc Hs Hrsp Hlen s'. subst s'. open_state s.
  destruct mc as [mlg comp v1 v2 v3 v4 mdbg].
  cbv [MotorController.get_speeds MotorController._pfwd MotorController._sfwd
       MotorController._paft MotorController._saft] in Hs.
  injection Hs as -> -> -> ->.
  enter. rewrite Hp. run. rewrite Hc.
  destruct dbg; run; run_motor; run; rewrite Hrsp; run; leave.
  all: rewrite <- Hlen; rewrite slice_assign_window
    by (apply slice_assign_length_ge; lia); auto.
Qed.

Lemma transact_buffer `{Platform} (flags : Z) (s : t) (frame : list byte) :
  List.length frame = PACKET_SIZE ->
  PACKET_SIZE <= List.length (_mem s) ->
  PACKET_SIZE <= List.length (_mem (transact flags s frame)).
Proof.
  intros Hf Hm. unfold transact. apply irq_handler_buffer.
  now apply master_write_cmd_window.
Qed.

Lemma transact_keeps_speeds `{Platform} (flags : Z) (frames : list (list byte)) :
  forall s,
    PACKET_SIZE <= List.length (_mem s) ->
    Forall (fun f => List.length f = PACKET_SIZE /\ keeps_speeds f = true)
      frames ->
    let s' := fold_left (transact flags) frames s in
    PACKET_SIZE <= List.length (_mem s') /\
    MotorController.get_speeds (_motor_controller s')
      = MotorController.get_speeds (_motor_controller s).
Proof.
  induction frames as [|f frames IH]; intros s Hm Hall; [now split|].
  inversion Hall as [|? ? [Hlen Hk] Hrest]; subst. cbn [fold_left].
  destruct (master_write_cmd_window s f Hlen Hm) as (Hw & Hm' & Hmc).
  destruct (IH (transact flags s f) (transact_buffer flags s f Hlen Hm) Hrest)
    as [Hb Hs].
  split; [exact Hb|]. rewrite Hs. unfold transact.
  rewrite other_frames_keep_speeds; [now rewrite Hmc|exact Hm'|now rewrite Hw].
Qed.

(** C7: on an enabled controller, [go] returns OKAY and stores the four
    values of the GO frame as they are; the handler answers the GO with the
    encoded ACK frame carrying those four values; and after any number of
    further commands that are neither STOP, GO nor DISABLE, a REQUEST is
    answered with the encoded RESPONSE frame carrying the same four values. *)
Theorem go_then_request `{Platform}
    (s : t) (flags : Z) (go_frame request_frame : list byte)
    (between : list (list byte)) (p : Payload) (ack rsp : list byte) :
  PACKET_SIZE <= List.length (_mem s) ->
  end_of_write flags ->
  MotorController.enabled (_motor_controller s) = true ->
  List.length go_frame = PACKET_SIZE ->
  Payload_from_bytes go_frame = Ok p ->
  Command_from_code (payload_code p) = Ok (Some Command.GO) ->
  Forall (fun f => List.length f = PACKET_SIZE /\ keeps_speeds f = true)
    between ->
  List.length request_frame = PACKET_SIZE ->
  verb_of request_frame = Some Command.REQUEST ->
  Payload_to_bytes
    (Payload_new Command.ACK (pfwd p) (sfwd p) (paft p) (saft p)) = Ok ack ->
  List.length ack = PACKET_SIZE ->
  Payload_to_bytes
    (Payload_new Command.RESPONSE (pfwd p) (sfwd p) (paft p) (saft p))
    = Ok rsp ->
  List.length rsp = PACKET_SIZE ->
  let went :=
    MotorController.go (pfwd p) (sfwd p) (paft p) (saft p)
      (_motor_controller s) in
  let s1 := transact flags s go_frame in
  let s2 := fold_left (transact flags) between s1 in
  let s3 := transact flags s2 request_frame in
  fst went = Response.OKAY /\
  MotorController.get_speeds (snd went) = (pfwd p, sfwd p, paft p, saft p) /\
  rsp_window (_mem s1) = ack /\
  MotorController.get_speeds (_motor_controller s1)
    = (pfwd p, sfwd p, paft p, saft p) /\
  rsp_window (_mem s3) = rsp.
Proof.
  intros Hm Hf He Hgl Hgp Hgc Hbetween Hrl Hrv Hack Hackl Hrsp Hrspl
    went s1 s2 s3.
  destruct (motor_go_enabled (_motor_controller s)
              (pfwd p) (sfwd p) (paft p) (saft p) He) as (Hok & Hsp & _).
  split; [exact Hok|]. split; [exact Hsp|].
  destruct (master_write_cmd_window s go_frame Hgl Hm) as (Hw & Hm' & Hmc).
  assert (H1 : rsp_window (_mem s1) = ack /\
               MotorController.get_speeds (_motor_controller s1)
                 = (pfwd p, sfwd p, paft p, saft p) /\
               MotorController.enabled (_motor_controller s1) = true).
  { apply go_is_acknowledged; rewrite ?Hw, ?Hmc; assumption. }
  destruct H1 as (Hr1 & Hs1 & _).
  split; [exact Hr1|]. split; [exact Hs1|].
  assert (Hb1 : PACKET_SIZE <= List.length (_mem s1))
    by now apply transact_buffer.
  destruct (transact_keeps_speeds flags between s1 Hb1 Hbetween) as [Hb2 Hs2].
  fold s2 in Hb2, Hs2. rewrite Hs1 in Hs2.
  destruct (master_write_cmd_window s2 request_frame Hrl Hb2)
    as (Hw2 & Hm2 & Hmc2).
  unfold verb_of in Hrv.
  destruct (Payload_from_bytes request_frame) as [q|] eqn:Hq; [|discriminate].
  destruct (Command_from_code (payload_code q)) as [[c|]|] eqn:Hc;
    try discriminate.
  injection Hrv as ->.
  apply (request_reports_speeds (master_write request_frame s2) flags q
           (pfwd p) (sfwd p) (paft p) (saft p) rsp);
    rewrite ?Hw2, ?Hmc2; assumption.
Qed.

(** ** Rejected and failed commands *)

Ltac crunch_motor :=
  run;
  repeat (first
            [ crunch_step
            | match goal with
              | |- context [match MotorController.stop ?m with _ => _ end] =>
                  destruct (MotorController.stop m) as [[] ?]
              end
            | match goal with
              | |- context [match MotorController.go ?a ?b ?c ?d ?m with _ => _ end] =>
                  destruct (MotorController.go a b c d m) as [[] ?]
              end ];
          run).

Lemma disable_is_applied `{Platform} (s : t) (flags : Z) (p : Payload) :
  PACKET_SIZE <= List.length (_mem s) ->
  end_of_write flags ->
  Payload_from_bytes (cmd_window (_mem s)) = Ok p ->
  Command_from_code (payload_code p) = Ok (Some Command.DISABLE) ->
  _motor_controller (final (_irq_handler flags s))
  = MotorController.disable (_motor_controller s).
Proof.
  intros Hm Hf Hp Hc. open_state s.
  enter. rewrite Hp. run. rewrite Hc. destruct dbg; crunch; reflexivity.
Qed.

Lemma rejected_when_disabled `{Platform}
    (s : t) (flags : Z) (p : Payload) (c : Command.t) (err : list byte) :
  PACKET_SIZE <= List.length (_mem s) ->
  end_of_write flags ->
  Payload_from_bytes (cmd_window (_mem s)) = Ok p ->
  Command_from_code (payload_code p) = Ok (Some c) ->
  c = Command.STOP \/ c = Command.GO ->
  MotorController.enabled (_motor_controller s) = false ->
  Payload_to_bytes (Payload_new Command.ERROR f0_0 f0_0 f0_0 f0_0) = Ok err ->
  List.length err = PACKET_SIZE ->
  let s' := final (_irq_handler flags s) in
  _motor_controller s' = _motor_controller s /\ rsp_window (_mem s') = err.
Proof.
  intros Hm Hf Hp Hc Hverb He Herr Hlen s'. subst s'. open_state s.
  enter. rewrite Hp. run. rewrite Hc.
  destruct Hverb; subst c; destruct dbg; run.
  all: rewrite ?motor_stop_disabled, ?motor_go_disabled by exact He.
  all: run; rewrite Herr; run; leave.
  all: rewrite <- Hlen; rewrite slice_assign_window
    by (apply slice_assign_length_ge; lia); auto.
Qed.

(** C6, as the code has it: after a DISABLE command the controller is the
    one [disable] leaves (its speeds zeroed if it was enabled); on it [stop]
    and [go] return FAIL and change nothing, so a STOP or GO that follows
    leaves the controller, and with it the four speeds, as the disable left
    them, and the handler answers with the encoded ERROR frame whose four
    fields are zero. *)
Theorem rejected_after_disable `{Platform}
    (s : t) (flags : Z) (disable_frame command_frame : list byte)
    (c : Command.t) (err : list byte) :
  PACKET_SIZE <= List.length (_mem s) ->
  end_of_write flags ->
  List.length disable_frame = PACKET_SIZE ->
  verb_of disable_frame = Some Command.DISABLE ->
  List.length command_frame = PACKET_SIZE ->
  verb_of command_frame = Some c ->
  c = Command.STOP \/ c = Command.GO ->
  Payload_to_bytes (Payload_new Command.ERROR f0_0 f0_0 f0_0 f0_0) = Ok err ->
  List.length err = PACKET_SIZE ->
  let s1 := transact flags s disable_frame in
  let s2 := transact flags s1 command_frame in
  let mc1 := _motor_controller s1 in
  mc1 = MotorController.disable (_motor_controller s) /\
  MotorController.stop mc1 = (Response.FAIL, mc1) /\
  (forall f1 f2 f3 f4,
     MotorController.go f1 f2 f3 f4 mc1 = (Response.FAIL, mc1)) /\
  _motor_controller s2 = mc1 /\
  rsp_window (_mem s2) = err.
Proof.
  intros Hm Hf Hdl Hdv Hcl Hcv Hverb Herr Hlen s1 s2 mc1.
  destruct (master_write_cmd_window s disable_frame Hdl Hm) as (Hw & Hm' & Hmc).
  unfold verb_of in Hdv, Hcv.
  destruct (Payload_from_bytes disable_frame) as [p|] eqn:Hp; [|discriminate].
  destruct (Command_from_code (payload_code p)) as [[d|]|] eqn:Hd;
    try discriminate.
  injection Hdv as ->.
  destruct (Payload_from_bytes command_frame) as [q|] eqn:Hq; [|discriminate].
  destruct (Command_from_code (payload_code q)) as [[c'|]|] eqn:Hc;
    try discriminate.
  injection Hcv as ->.
  assert (H1 : mc1 = MotorController.disable (_motor_controller s)).
  { subst mc1 s1. unfold transact. rewrite <- Hmc.
    apply (disable_is_applied _ flags p); rewrite ?Hw; assumption. }
  assert (He : MotorController.enabled mc1 = false)
    by (rewrite H1; apply motor_disable_disabled).
  split; [exact H1|].
  split; [now apply motor_stop_disabled|].
  split; [intros; now apply motor_go_disabled|].
  assert (Hb1 : PACKET_SIZE <= List.length (_mem s1))
    by now apply transact_buffer.
  destruct (master_write_cmd_window s1 command_frame Hcl Hb1)
    as (Hw1 & Hm1 & Hmc1).
  fold mc1 in Hmc1. rewrite <- Hmc1.
  apply (rejected_when_disabled (master_write command_frame s1) flags q c err);
    rewrite ?Hw1, ?Hmc1; assumption.
Qed.

(** C3, what the code does: when decoding fails with a [ValueError] whose
    message mentions the sync header, the handler answers with the encoded
    ERROR frame carrying code 3 and logs a warning, and then, through
    [_handle_error], a record of error severity as well. *)
Theorem bad_sync_header_logs_an_error `{Platform}
    (s : t) (flags : Z) (e : exc) (bs : list byte) :
  PACKET_SIZE <= List.length (_mem s) ->
  end_of_write flags ->
  Payload_from_bytes (cmd_window (_mem s)) = Raise e ->
  is_ValueError e = true ->
  contains "invalid sync header" (str_exc e) = true ->
  Payload_to_bytes
    (Payload_new Command.ERROR (float_of_int 3) f0_0 f0_0 f0_0) = Ok bs ->
  List.length bs = PACKET_SIZE ->
  let r := _irq_handler flags s in
  rsp_window (_mem (final r)) = bs /\
  In (Level.WARN, ("payload warning: " ++ str_exc e)%string) (logged (steps r)) /\
  In (Level.ERROR, ("Error " ++ str_int 3 ++ ": " ++ str_exc e)%string)
     (logged (steps r)).
Proof.
  intros Hm Hf Hp Hv Hsync Hbs Hlen r. subst r. open_state s.
  enter. rewrite Hp. run. rewrite Hv, Hsync. run. rewrite Hbs.
  destruct dbg; run; leave.
  all: rewrite <- Hlen; rewrite slice_assign_window
    by (apply slice_assign_length_ge; lia); cbn [app logged In]; auto 10.
Qed.

(** ** The transaction counter and the indicator *)

Section Steady.
Context {SC : Scalars} {PF : Platform}.

Lemma steady_ret {A : Type} (a : A) : steady (ret a).
Proof. now intros s. Qed.

Lemma steady_raise {A : Type} (e : exc) : steady (@raise _ A e).
Proof. now intros s. Qed.

Lemma steady_get : steady get.
Proof. now intros s. Qed.

Lemma steady_bind {A B : Type} (c : M A) (k : A -> M B) :
  steady c -> (forall a, steady (k a)) -> steady (bind c k).
Proof.
  intros Hc Hk s. specialize (Hc s). unfold bind.
  destruct (c s) as [[[a|e] s1] tr1]; proj; [|exact Hc].
  specialize (Hk a s1). destruct (k a s1) as [[r s2] tr2]; proj.
  destruct Hc as (? & ? & ?), Hk as (? & ? & ?). repeat split; congruence.
Qed.

Lemma steady_try_except {A : Type} (body : M A) (handler : exc -> M A) :
  steady body -> (forall e, steady (handler e)) ->
  steady (try_except body handler).
Proof.
  intros Hc Hk s. specialize (Hc s). unfold try_except.
  destruct (body s) as [[[a|e] s1] tr1]; proj; [exact Hc|].
  specialize (Hk e s1). destruct (handler e s1) as [[r s2] tr2]; proj.
  destruct Hc as (? & ? & ?), Hk as (? & ? & ?). repeat split; congruence.
Qed.

Lemma steady_when (b : bool) (c : M unit) : steady c -> steady (when b c).
Proof. destruct b; [trivial|intros _; apply steady_ret]. Qed.

Lemma steady_observe (ev : event) : steady (observe ev).
Proof. now intros s. Qed.

Lemma steady_log (lvl : Level.t) (msg : string) : steady (log lvl msg).
Proof. now intros s. Qed.

Lemma steady_when_debug (lvl : Level.t) (msg : t -> string) :
  steady (when_debug lvl msg).
Proof.
  apply steady_bind; [apply steady_get|]. intros s.
  apply steady_when, steady_log.
Qed.

Lemma steady_mem_assign (start stop : nat) (data : list byte) :
  steady (mem_assign start stop data).
Proof. now intros s. Qed.

Lemma steady_from_bytes (bs : list byte) : steady (from_bytes bs).
Proof. now intros s. Qed.

Lemma steady_from_code (c : code) : steady (from_code c).
Proof. now intros s. Qed.

Lemma steady_to_bytes (p : Payload) : steady (to_bytes p).
Proof. now intros s. Qed.

Lemma steady_motor {A : Type} (call : motor_call)
    (method : MotorController.t -> A * MotorController.t) :
  steady (motor call method).
Proof.
  intros s. unfold motor. now destruct (method (_motor_controller s)).
Qed.

Ltac steady_step :=
  first
    [ apply steady_bind | apply steady_try_except | apply steady_when
    | apply steady_ret | apply steady_raise | apply steady_get
    | apply steady_log | apply steady_when_debug | apply steady_mem_assign
    | apply steady_from_bytes | apply steady_from_code | apply steady_to_bytes
    | apply steady_motor | apply steady_observe
    | match goal with
      | |- steady (match ?x with _ => _ end) => destruct x
      end
    | intro ].

Lemma steady_send_response (command : pyobj) (a b c d : float) :
  steady (_send_response command a b c d).
Proof. unfold _send_response. repeat steady_step. Qed.

Lemma steady_handle_error (n : Z) (msg : string) :
  steady (_handle_error n msg).
Proof.
  unfold _handle_error. apply steady_bind; [apply steady_log|].
  intros _. apply steady_send_response.
Qed.

Lemma steady_dispatch (command : option Command.t) (p : Payload) :
  steady (dispatch command p).
Proof.
  unfold dispatch, _handle_ping, _handle_stop, _handle_go,
    _handle_request, _handle_enable, _handle_disable, get_speeds.
  destruct command as [[]|]; try apply steady_handle_error;
    repeat first [apply steady_send_response | steady_step].
Qed.

Lemma steady_process_failed (e : exc) : steady (process_failed e).
Proof.
  unfold process_failed.
  destruct (is_ValueError e); [destruct (negb _)|];
    repeat first [apply steady_handle_error | steady_step].
Qed.

End Steady.

(** Runs the handler down to the dispatch and to the [except] clauses. *)
Ltac run_outer :=
  cbv beta iota zeta delta
    [_irq_handler bind try_except ret get when log when_debug mem_assign
     from_bytes from_code process_command count_transaction led_toggle
     final outcome steps fst snd negb
     _log _i2c_id _i2c_address _led _i2c _debug _tx_count _mem
     _motor_controller set_log set_led set_tx_count set_mem
     CMD_OFFSET RSP_OFFSET cmd_window];
  change (0 + PACKET_SIZE) with PACKET_SIZE.

(** Replaces the run of a steady, total body by its final state. *)
Ltac settle c S Htotal Hsteady :=
  let Ho := fresh "Ho" in
  let Ht := fresh "Ht" in
  let Hl := fresh "Hl" in
  let Hd := fresh "Hd" in
  destruct (Htotal S) as [[] Ho];
  destruct (Hsteady S) as (Ht & Hl & Hd);
  destruct (c S) as [[? [? ? ? ? ? ? ? ? ?]] ?];
  cbv [outcome final fst snd _tx_count _led _debug] in Ho, Ht, Hl, Hd;
  subst.

Section Uncounted.
Context {SC : Scalars} {PF : Platform}.

Lemma uncounted_bind {A B : Type} (c : M A) (k : A -> M B) :
  uncounted c -> (forall a, uncounted (k a)) -> uncounted (bind c k).
Proof.
  intros Hc Hk s. specialize (Hc s). unfold bind.
  destruct (c s) as [[[a|e] s1] tr1]; proj; [|exact Hc].
  specialize (Hk a s1). destruct (k a s1) as [[r s2] tr2]; proj.
  now rewrite existsb_app, Hc, Hk.
Qed.

Lemma uncounted_try_except {A : Type} (body : M A) (handler : exc -> M A) :
  uncounted body -> (forall e, uncounted (handler e)) ->
  uncounted (try_except body handler).
Proof.
  intros Hc Hk s. specialize (Hc s). unfold try_except.
  destruct (body s) as [[[a|e] s1] tr1]; proj; [exact Hc|].
  specialize (Hk e s1). destruct (handler e s1) as [[r s2] tr2]; proj.
  now rewrite existsb_app, Hc, Hk.
Qed.

Lemma uncounted_when (b : bool) (c : M unit) :
  uncounted c -> uncounted (when b c).
Proof. destruct b; [trivial|now intros _ s]. Qed.

Lemma uncounted_motor {A : Type} (call : motor_call)
    (method : MotorController.t -> A * MotorController.t) :
  uncounted (motor call method).
Proof.
  intros s. unfold motor. now destruct (method (_motor_controller s)).
Qed.

Lemma uncounted_when_debug (lvl : Level.t) (msg : t -> string) :
  uncounted (when_debug lvl msg).
Proof.
  apply uncounted_bind; [now intros s|]. intros s.
  apply uncounted_when. now intros s'.
Qed.

Ltac uncounted_step :=
  first
    [ apply uncounted_bind | apply uncounted_try_except
    | apply uncounted_when_debug | apply uncounted_when
    | apply uncounted_motor
    | match goal with
      | |- uncounted (match ?x with _ => _ end) => destruct x
      end
    | (intros ? ; reflexivity)
    | intro ].

Lemma uncounted_send_response (command : pyobj) (a b c d : float) :
  uncounted (_send_response command a b c d).
Proof. unfold _send_response. repeat uncounted_step. Qed.

Lemma uncounted_handle_error (n : Z) (msg : string) :
  uncounted (_handle_error n msg).
Proof.
  unfold _handle_error. apply uncounted_bind; [now intros s|].
  intros _. apply uncounted_send_response.
Qed.

Lemma uncounted_dispatch (command : option Command.t) (p : Payload) :
  uncounted (dispatch command p).
Proof.
  unfold dispatch, _handle_ping, _handle_stop, _handle_go,
    _handle_request, _handle_enable, _handle_disable, get_speeds.
  destruct command as [[]|]; try apply uncounted_handle_error;
    repeat first [apply uncounted_send_response | uncounted_step].
Qed.

Lemma uncounted_process_failed (e : exc) : uncounted (process_failed e).
Proof.
  unfold process_failed.
  destruct (is_ValueError e); [destruct (negb _)|];
    repeat first [apply uncounted_handle_error | uncounted_step].
Qed.

End Uncounted.

(** When the command window decodes and its code is looked up, the run of
    the handler is the clearing, the decoding and the lookup, then the
    dispatch, then the counting and the toggling. *)
Lemma counted_after_dispatch `{Platform}
    (s : t) (flags : Z) (p : Payload) (command : option Command.t) :
  PACKET_SIZE <= List.length (_mem s) ->
  end_of_write flags ->
  Payload_from_bytes (cmd_window (_mem s)) = Ok p ->
  Command_from_code (payload_code p) = Ok command ->
  let r := _irq_handler flags s in
  let m0 :=
    slice_assign (_mem s) RSP_OFFSET (RSP_OFFSET + PACKET_SIZE)
      (zeros PACKET_SIZE) in
  let rx := ("rx: " ++ str_payload p)%string in
  let s0 :=
    if _debug s then set_log (_log s ++ [(Level.DEBUG, rx)]) (set_mem m0 s)
    else set_mem m0 s in
  exists s1 handled,
    dispatch command p s0 = (Ok tt, s1, handled) /\
    _tx_count s1 = _tx_count s /\
    _led s1 = _led s /\
    existsb is_count handled = false /\
    steps r
    = ((EvAssign RSP_OFFSET (RSP_OFFSET + PACKET_SIZE) (zeros PACKET_SIZE), m0)
         :: (EvFromBytes (cmd_window (_mem s)), m0)
         :: (if _debug s then [(EvLog Level.DEBUG rx, m0)] else [])
         ++ [(EvFromCode (payload_code p), m0)])
        ++ handled
        ++ [(EvTxCount, _mem s1); (EvLedToggle, _mem s1)]
        ++ (if _debug s && negb (Z.land flags IRQ_END_READ =? 0)%Z
            then [(EvLog Level.DEBUG "master read response", _mem s1)]
            else []) /\
    _mem (final r) = _mem s1 /\
    _motor_controller (final r) = _motor_controller s1 /\
    _tx_count (final r) = (_tx_count s1 + 1)%Z /\
    _led (final r) = negb (_led s1).
Proof.
  intros Hm Hf Hp Hc r m0 rx s0. subst r m0 rx s0. open_state s.
  unfold _irq_handler. rewrite Hf. run_outer.
  rewrite slice_assign_prefix by lia. rewrite Hp.
  destruct dbg; run_outer; rewrite Hc; run_outer;
    match goal with
    | |- context [dispatch command p ?S] =>
        pose proof (uncounted_dispatch command p S) as Hu;
        destruct (total_dispatch command p S) as [[] Ho];
        destruct (steady_dispatch command p S) as (Ht & Hl & Hd);
        destruct (dispatch command p S) as [[o s1] handled]
    end;
    cbv [outcome final steps fst snd] in Ho, Ht, Hl, Hd, Hu; subst o;
    exists s1, handled;
    destruct s1 as [lg1 id1 ad1 led1 i2c1 dbg1 tx1 mem1 mc1];
    cbv [_tx_count _led _debug] in Ht, Hl, Hd; subst;
    run_outer; leave.
  all: repeat split; try assumption.
  all: cbn [app andb]; rewrite <- ?app_assoc; cbn [app];
    rewrite ?app_nil_r; reflexivity.
Qed.

(** When the decoding or the lookup raises, the handler goes through
    [_handle_error] and nothing is counted. *)
Lemma fault_is_answered `{Platform} (s : t) (flags : Z) (e : exc) :
  PACKET_SIZE <= List.length (_mem s) ->
  end_of_write flags ->
  fault_before_dispatch s e ->
  let r := _irq_handler flags s in
  let answer :=
    Payload_new Command.ERROR (float_of_int (code_of_fault e))
      f0_0 f0_0 f0_0 in
  existsb is_count (steps r) = false /\
  existsb is_motor (steps r) = false /\
  _tx_count (final r) = _tx_count s /\
  _led (final r) = _led s /\
  _motor_controller (final r) = _motor_controller s /\
  In (EvToBytes answer) (map fst (steps r)) /\
  match Payload_to_bytes answer with
  | Ok bs => List.length bs = PACKET_SIZE -> rsp_window (_mem (final r)) = bs
  | Raise _ => rsp_window (_mem (final r)) = zeros PACKET_SIZE
  end.
Proof.
  intros Hm Hf Hfault r answer. subst r answer. open_state s.
  unfold fault_before_dispatch in Hfault. run_in Hfault.
  unfold code_of_fault.
  assert (Hz : slice
                 (slice_assign mem PACKET_SIZE (PACKET_SIZE + PACKET_SIZE)
                    (zeros PACKET_SIZE))
                 PACKET_SIZE (PACKET_SIZE + PACKET_SIZE)
               = zeros PACKET_SIZE) by exact (cleared_window mem Hm).
  destruct Hfault as [Hp|(p & Hp & Hc)]; enter; rewrite Hp; run;
    destruct dbg; run; rewrite ?Hc; run;
    (destruct (is_ValueError e);
       [destruct (contains "invalid sync header" (str_exc e))|]); run;
    match goal with
    | |- context [Payload_to_bytes ?a] =>
        destruct (Payload_to_bytes a) as [bs|e']
    end; run; leave.
  all: repeat split; try reflexivity; try exact Hz.
  all: try (cbn [app map fst In]; auto 20; fail).
  all: intros Hlen; rewrite <- Hlen; rewrite slice_assign_window
    by (apply slice_assign_length_ge; lia); reflexivity.
Qed.

(** C4, as the code has it: when a write has ended and the command window
    decodes to a payload whose code the command table accepts, the handler
    adds exactly one to the transaction counter and toggles the indicator,
    whatever the verb, the motor controller or the encoder answer, and it
    does so after the command has been handled: the dispatch returns
    normally with the counter and the indicator as they were, and the
    counting and the toggling are the two steps that follow it, with nothing
    after them but the optional debug record.  When the decoding or the
    lookup raises, nothing is counted or toggled and the motor controller is
    left alone; the handler goes through [_handle_error] with code 2, 3 or 4,
    which tries to encode an ERROR frame with that code: the frame is in the
    response window afterwards when it encodes, and the window is all zero
    when the encoder raises. *)
Theorem transaction_counted_when_dispatched `{Platform} (s : t) (flags : Z) :
  PACKET_SIZE <= List.length (_mem s) ->
  end_of_write flags ->
  let r := _irq_handler flags s in
  let s' := final r in
  _tx_count s' = (if decodes s then _tx_count s + 1 else _tx_count s)%Z /\
  _led s' = (if decodes s then negb (_led s) else _led s) /\
  (forall p command,
     Payload_from_bytes (cmd_window (_mem s)) = Ok p ->
     Command_from_code (payload_code p) = Ok command ->
     let m0 :=
       slice_assign (_mem s) RSP_OFFSET (RSP_OFFSET + PACKET_SIZE)
         (zeros PACKET_SIZE) in
     let rx := ("rx: " ++ str_payload p)%string in
     let s0 :=
       if _debug s then set_log (_log s ++ [(Level.DEBUG, rx)]) (set_mem m0 s)
       else set_mem m0 s in
     exists s1 handled,
       dispatch command p s0 = (Ok tt, s1, handled) /\
       _tx_count s1 = _tx_count s /\
       _led s1 = _led s /\
       existsb is_count handled = false /\
       steps r
       = ((EvAssign RSP_OFFSET (RSP_OFFSET + PACKET_SIZE) (zeros PACKET_SIZE),
           m0)
            :: (EvFromBytes (cmd_window (_mem s)), m0)
            :: (if _debug s then [(EvLog Level.DEBUG rx, m0)] else [])
            ++ [(EvFromCode (payload_code p), m0)])
           ++ handled
           ++ [(EvTxCount, _mem s1); (EvLedToggle, _mem s1)]
           ++ (if _debug s && negb (Z.land flags IRQ_END_READ =? 0)%Z
               then [(EvLog Level.DEBUG "master read response", _mem s1)]
               else []) /\
       _mem s' = _mem s1 /\
       _motor_controller s' = _motor_controller s1 /\
       _tx_count s' = (_tx_count s1 + 1)%Z /\
       _led s' = negb (_led s1)) /\
  (forall e,
     fault_before_dispatch s e ->
     let answer :=
       Payload_new Command.ERROR (float_of_int (code_of_fault e))
         f0_0 f0_0 f0_0 in
     existsb is_count (steps r) = false /\
     existsb is_motor (steps r) = false /\
     _tx_count s' = _tx_count s /\
     _led s' = _led s /\
     _motor_controller s' = _motor_controller s /\
     In (EvToBytes answer) (map fst (steps r)) /\
     match Payload_to_bytes answer with
     | Ok bs => List.length bs = PACKET_SIZE -> rsp_window (_mem s') = bs
     | Raise _ => rsp_window (_mem s') = zeros PACKET_SIZE
     end).
Proof.
  intros Hm Hf r s'. subst r s'.
  assert (Hok : forall p command,
            Payload_from_bytes (cmd_window (_mem s)) = Ok p ->
            Command_from_code (payload_code p) = Ok command ->
            _tx_count (final (_irq_handler flags s)) = (_tx_count s + 1)%Z /\
            _led (final (_irq_handler flags s)) = negb (_led s)).
  { intros p command Hp Hc.
    destruct (counted_after_dispatch s flags p command Hm Hf Hp Hc)
      as (s1 & handled & _ & Ht & Hl & _ & _ & _ & _ & Ht' & Hl').
    rewrite Ht', Hl', Ht, Hl. now split. }
  assert (Hno : forall e,
            fault_before_dispatch s e ->
            _tx_count (final (_irq_handler flags s)) = _tx_count s /\
            _led (final (_irq_handler flags s)) = _led s).
  { intros e He.
    destruct (fault_is_answered s flags e Hm Hf He)
      as (_ & _ & Ht & Hl & _).
    now split. }
  assert (Hd : (if decodes s
                then _tx_count (final (_irq_handler flags s))
                     = (_tx_count s + 1)%Z /\
                     _led (final (_irq_handler flags s)) = negb (_led s)
                else _tx_count (final (_irq_handler flags s)) = _tx_count s /\
                     _led (final (_irq_handler flags s)) = _led s)).
  { unfold decodes.
    destruct (Payload_from_bytes (cmd_window (_mem s))) as [p|e] eqn:Hp.
    - destruct (Command_from_code (payload_code p)) as [c|e] eqn:Hc.
      + exact (Hok p c eq_refl Hc).
      + apply (Hno e). right. exists p. now split.
    - apply (Hno e). now left. }
  split; [destruct (decodes s); apply Hd|].
  split; [destruct (decodes s); apply Hd|].
  split.
  - intros p command Hp Hc. exact (counted_after_dispatch s flags p command Hm Hf Hp Hc).
  - intros e He. exact (fault_is_answered s flags e Hm Hf He).
Qed.

(** ** Faults *)

Lemma send_response_fault `{Platform}
    (s : t) (c : Command.t) (f1 f2 f3 f4 : float) (e : exc) :
  Payload_to_bytes (Payload_new c f1 f2 f3 f4) = Raise e ->
  let r := _send_response (ObjCommand c) f1 f2 f3 f4 s in
  outcome r = Ok tt /\
  _mem (final r) = _mem s /\
  logged (steps r)
  = [(Level.ERROR,
      (str_exc_type e ++ " raised sending response: " ++ str_exc e)%string)].
Proof.
  intros He r. subst r. destruct s as [lg id ad led i2c dbg tx mem mc].
  run. rewrite He. run. auto.
Qed.

(** C2, as the code has it: when a write has ended the handler always
    returns normally, so no fault leaves the callback.  A fault other than a
    [ValueError], raised by the decoding of the command window or by the
    lookup of its code, is answered with the encoded ERROR frame that carries
    code 4.  A fault raised while a response is encoded is caught inside
    [_send_response], which logs it at error severity and leaves the buffer
    as it was: no ERROR frame is written for it. *)
Theorem faults_stay_inside_handler `{Platform} (s : t) (flags : Z) :
  PACKET_SIZE <= List.length (_mem s) ->
  end_of_write flags ->
  outcome (_irq_handler flags s) = Ok tt /\
  (forall e bs,
     fault_before_dispatch s e ->
     is_ValueError e = false ->
     Payload_to_bytes
       (Payload_new Command.ERROR (float_of_int 4) f0_0 f0_0 f0_0) = Ok bs ->
     List.length bs = PACKET_SIZE ->
     rsp_window (_mem (final (_irq_handler flags s))) = bs) /\
  (forall s' c f1 f2 f3 f4 e,
     Payload_to_bytes (Payload_new c f1 f2 f3 f4) = Raise e ->
     let r := _send_response (ObjCommand c) f1 f2 f3 f4 s' in
     outcome r = Ok tt /\
     _mem (final r) = _mem s' /\
     logged (steps r)
     = [(Level.ERROR,
         (str_exc_type e ++ " raised sending response: " ++ str_exc e)%string)]).
Proof.
  intros Hm Hf. split; [|split].
  - destruct (total_irq_handler flags s) as [[] Ho]. exact Ho.
  - intros e bs Hfault Hv Hbs Hlen. open_state s.
    unfold fault_before_dispatch in Hfault. run_in Hfault.
    destruct Hfault as [Hp|(p & Hp & Hc)].
    + enter. rewrite Hp. run. rewrite Hv. run. rewrite Hbs.
      destruct dbg; run; leave.
      all: rewrite <- Hlen; rewrite slice_assign_window
        by (apply slice_assign_length_ge; lia); reflexivity.
    + enter. rewrite Hp. run.
      destruct dbg; run; rewrite Hc; run; rewrite Hv; run; rewrite Hbs;
        run; leave.
      all: rewrite <- Hlen; rewrite slice_assign_window
        by (apply slice_assign_length_ge; lia); reflexivity.
  - intros s' c f1 f2 f3 f4 e He. now apply send_response_fault.
Qed.

(** * Further properties *)

(** ** Other answers of the handler *)

(** X1: a frame that decodes to a verb the handler does not dispatch (ACK,
    RESPONSE, ERROR, or no member of the table) is answered with the encoded
    ERROR frame carrying code 1; the motor controller is untouched, the error
    is logged, and the transaction is counted. *)
Theorem unknown_verb_is_answered_with_error_1 `{Platform}
    (s : t) (flags : Z) (p : Payload) (c : option Command.t)
    (bs : list byte) :
  PACKET_SIZE <= List.length (_mem s) ->
  end_of_write flags ->
  Payload_from_bytes (cmd_window (_mem s)) = Ok p ->
  Command_from_code (payload_code p) = Ok c ->
  dispatched c = false ->
  Payload_to_bytes
    (Payload_new Command.ERROR (float_of_int 1) f0_0 f0_0 f0_0) = Ok bs ->
  List.length bs = PACKET_SIZE ->
  let r := _irq_handler flags s in
  rsp_window (_mem (final r)) = bs /\
  _motor_controller (final r) = _motor_controller s /\
  _tx_count (final r) = (_tx_count s + 1)%Z /\
  In (Level.ERROR,
      ("Error " ++ str_int 1 ++ ": " ++ "unknown command: "
         ++ str_code (payload_code p))%string)
     (logged (steps r)).
Proof.
  intros Hm Hf Hp Hc Hd Hbs Hlen r. subst r. open_state s.
  enter. rewrite Hp. run.
  destruct c as [[]|]; try discriminate Hd;
    destruct dbg; run; rewrite Hc; run; rewrite Hbs; run; leave.
  all: rewrite <- Hlen; rewrite slice_assign_window
    by (apply slice_assign_length_ge; lia); cbn [app logged In]; auto 12.
Qed.

(** X2: a [ValueError] that does not mention the sync header, whether the
    decoder raises it or the lookup of the code, is answered with the encoded
    ERROR frame carrying code 2 and logged twice at error severity; the motor
    controller and the transaction counter are left as they were. *)
Theorem malformed_payload_is_answered_with_error_2 `{Platform}
    (s : t) (flags : Z) (e : exc) (bs : list byte) :
  PACKET_SIZE <= List.length (_mem s) ->
  end_of_write flags ->
  fault_before_dispatch s e ->
  is_ValueError e = true ->
  contains "invalid sync header" (str_exc e) = false ->
  Payload_to_bytes
    (Payload_new Command.ERROR (float_of_int 2) f0_0 f0_0 f0_0) = Ok bs ->
  List.length bs = PACKET_SIZE ->
  let r := _irq_handler flags s in
  rsp_window (_mem (final r)) = bs /\
  _motor_controller (final r) = _motor_controller s /\
  _tx_count (final r) = _tx_count s /\
  In (Level.ERROR, ("payload error: " ++ str_exc e)%string)
     (logged (steps r)) /\
  In (Level.ERROR, ("Error " ++ str_int 2 ++ ": " ++ str_exc e)%string)
     (logged (steps r)).
Proof.
  intros Hm Hf Hfault Hv Hsync Hbs Hlen r. subst r. open_state s.
  unfold fault_before_dispatch in Hfault. run_in Hfault.
  destruct Hfault as [Hp|(p & Hp & Hc)].
  - enter. rewrite Hp. run. rewrite Hv, Hsync. run. rewrite Hbs.
    destruct dbg; run; leave.
    all: rewrite <- Hlen; rewrite slice_assign_window
      by (apply slice_assign_length_ge; lia); cbn [app logged In]; auto 12.
  - enter. rewrite Hp. run.
    destruct dbg; run; rewrite Hc; run; rewrite Hv, Hsync; run; rewrite Hbs;
      run; leave.
    all: rewrite <- Hlen; rewrite slice_assign_window
      by (apply slice_assign_length_ge; lia); cbn [app logged In]; auto 12.
Qed.

Lemma stop_is_acknowledged `{Platform}
    (s : t) (flags : Z) (p : Payload) (ack : list byte) :
  PACKET_SIZE <= List.length (_mem s) ->
  end_of_write flags ->
  Payload_from_bytes (cmd_window (_mem s)) = Ok p ->
  Command_from_code (payload_code p) = Ok (Some Command.STOP) ->
  MotorController.enabled (_motor_controller s) = true ->
  Payload_to_bytes (Payload_new Command.ACK f0_0 f0_0 f0_0 f0_0) = Ok ack ->
  List.length ack = PACKET_SIZE ->
  let s' := final (_irq_handler flags s) in
  rsp_window (_mem s') = ack /\
  MotorController.get_speeds (_motor_controller s') = zero_speeds /\
  MotorController.enabled (_motor_controller s') = true.
Proof.
  intros Hm Hf Hp Hc He Hack Hlen s'. subst s'. open_state s. open_motor mc.
  enter. rewrite Hp. run. rewrite Hc.
  destruct dbg, mdbg; run; run_motor; run; rewrite Hack; run; leave.
  all: rewrite <- Hlen; rewrite slice_assign_window
    by (apply slice_assign_length_ge; lia); auto.
Qed.

(** X3: on an enabled controller a STOP is answered with the encoded ACK
    frame with four zero fields and leaves the controller enabled with zero
    speeds; after any number of further commands that are neither STOP, GO
    nor DISABLE, a REQUEST is answered with the encoded RESPONSE frame with
    four zero fields. *)
Theorem stop_then_request `{Platform}
    (s : t) (flags : Z) (stop_frame request_frame : list byte)
    (between : list (list byte)) (ack rsp : list byte) :
  PACKET_SIZE <= List.length (_mem s) ->
  end_of_write flags ->
  MotorController.enabled (_motor_controller s) = true ->
  List.length stop_frame = PACKET_SIZE ->
  verb_of stop_frame = Some Command.STOP ->
  Forall (fun f => List.length f = PACKET_SIZE /\ keeps_speeds f = true)
    between ->
  List.length request_frame = PACKET_SIZE ->
  verb_of request_frame = Some Command.REQUEST ->
  Payload_to_bytes (Payload_new Command.ACK f0_0 f0_0 f0_0 f0_0) = Ok ack ->
  List.length ack = PACKET_SIZE ->
  Payload_to_bytes (Payload_new Command.RESPONSE f0_0 f0_0 f0_0 f0_0)
    = Ok rsp ->
  List.length rsp = PACKET_SIZE ->
  let s1 := transact flags s stop_frame in
  let s2 := fold_left (transact flags) between s1 in
  let s3 := transact flags s2 request_frame in
  rsp_window (_mem s1) = ack /\
  MotorController.get_speeds (_motor_controller s1) = zero_speeds /\
  MotorController.enabled (_motor_controller s1) = true /\
  rsp_window (_mem s3) = rsp.
Proof.
  intros Hm Hf He Hsl Hsv Hbetween Hrl Hrv Hack Hackl Hrsp Hrspl s1 s2 s3.
  destruct (master_write_cmd_window s stop_frame Hsl Hm) as (Hw & Hm' & Hmc).
  unfold verb_of in Hsv, Hrv.
  destruct (Payload_from_bytes stop_frame) as [p|] eqn:Hp; [|discriminate].
  destruct (Command_from_code (payload_code p)) as [[c|]|] eqn:Hc;
    try discriminate.
  injection Hsv as ->.
  destruct (Payload_from_bytes request_frame) as [q|] eqn:Hq; [|discriminate].
  destruct (Command_from_code (payload_code q)) as [[c|]|] eqn:Hc';
    try discriminate.
  injection Hrv as ->.
  assert (H1 : rsp_window (_mem s1) = ack /\
               MotorController.get_speeds (_motor_controller s1) = zero_speeds /\
               MotorController.enabled (_motor_controller s1) = true).
  { apply (stop_is_acknowledged (master_write stop_frame s) flags p ack);
      rewrite ?Hw, ?Hmc; assumption. }
  destruct H1 as (Hr1 & Hs1 & He1).
  split; [exact Hr1|]. split; [exact Hs1|]. split; [exact He1|].
  assert (Hb1 : PACKET_SIZE <= List.length (_mem s1))
    by now apply transact_buffer.
  destruct (transact_keeps_speeds flags between s1 Hb1 Hbetween) as [Hb2 Hs2].
  fold s2 in Hb2, Hs2. rewrite Hs1 in Hs2.
  destruct (master_write_cmd_window s2 request_frame Hrl Hb2)
    as (Hw2 & Hm2 & Hmc2).
  apply (request_reports_speeds (master_write request_frame s2) flags q
           f0_0 f0_0 f0_0 f0_0 rsp);
    rewrite ?Hw2, ?Hmc2; assumption.
Qed.

(** X4: an ENABLE or a DISABLE is answered with the encoded ACK frame with
    four zero fields, whatever the state of the motor controller, which the
    handler leaves as its [enable] or [disable] method leaves it; the
    transaction is counted. *)
Theorem enable_and_disable_are_acknowledged `{Platform}
    (s : t) (flags : Z) (p : Payload) (c : Command.t) (ack : list byte) :
  PACKET_SIZE <= List.length (_mem s) ->
  end_of_write flags ->
  Payload_from_bytes (cmd_window (_mem s)) = Ok p ->
  Command_from_code (payload_code p) = Ok (Some c) ->
  c = Command.ENABLE \/ c = Command.DISABLE ->
  Payload_to_bytes (Payload_new Command.ACK f0_0 f0_0 f0_0 f0_0) = Ok ack ->
  List.length ack = PACKET_SIZE ->
  let s' := final (_irq_handler flags s) in
  rsp_window (_mem s') = ack /\
  _motor_controller s'
  = match c with
    | Command.ENABLE => MotorController.enable (_motor_controller s)
    | _ => MotorController.disable (_motor_controller s)
    end /\
  _tx_count s' = (_tx_count s + 1)%Z.
Proof.
  intros Hm Hf Hp Hc Hverb Hack Hlen s'. subst s'. open_state s.
  enter. rewrite Hp. run. rewrite Hc.
  destruct Hverb; subst c; destruct dbg; run; rewrite Hack; run; leave.
  all: rewrite <- Hlen; rewrite slice_assign_window
    by (apply slice_assign_length_ge; lia); auto.
Qed.

(** X5: a REQUEST is answered with the encoded RESPONSE frame carrying the
    stored speeds, enabled or not; it leaves the motor controller as it was,
    logs the command at info severity and counts the transaction. *)
Theorem request_leaves_the_controller `{Platform}
    (s : t) (flags : Z) (p : Payload) (a b c d : float) (rsp : list byte) :
  PACKET_SIZE <= List.length (_mem s) ->
  end_of_write flags ->
  Payload_from_bytes (cmd_window (_mem s)) = Ok p ->
  Command_from_code (payload_code p) = Ok (Some Command.REQUEST) ->
  MotorController.get_speeds (_motor_controller s) = (a, b, c, d) ->
  Payload_to_bytes (Payload_new Command.RESPONSE a b c d) = Ok rsp ->
  List.length rsp = PACKET_SIZE ->
  let r := _irq_handler flags s in
  rsp_window (_mem (final r)) = rsp /\
  _motor_controller (final r) = _motor_controller s /\
  _tx_count (final r) = (_tx_count s + 1)%Z /\
  In (Level.INFO, (Fore_BLUE ++ "command: REQUEST")%string) (logged (steps r)).
Proof.
  intros Hm Hf Hp Hc Hs Hrsp Hlen r. subst r. open_state s.
  destruct mc as [mlg comp v1 v2 v3 v4 mdbg].
  cbv [MotorController.get_speeds MotorController._pfwd MotorController._sfwd
       MotorController._paft MotorController._saft] in Hs.
  injection Hs as -> -> -> ->.
  enter. rewrite Hp. run. rewrite Hc.
  destruct dbg; run; run_motor; run; rewrite Hrsp; run; leave.
  all: rewrite <- Hlen; rewrite slice_assign_window
    by (apply slice_assign_length_ge; lia); cbn [app logged In]; auto 12.
Qed.


Lemma coherent_cmd_window `{Platform} (tr : trace) :
  forall m,
    coherent m tr -> PACKET_SIZE <= List.length m ->
    cmd_window (last_mem m tr) = cmd_window m.
Proof.
  induction tr as [|[ev m'] tr IH]; intros m Hc Hm; [reflexivity|].
  destruct Hc as [Hev Hc].
  change (last_mem m ((ev, m') :: tr)) with (last_mem m ([(ev, m')] ++ tr)).
  rewrite last_mem_app.
  destruct ev; try (subst m'; now apply IH).
  destruct Hev as [-> ->].
  rewrite IH; [|exact Hc|now apply slice_assign_length_ge].
  unfold cmd_window, CMD_OFFSET, RSP_OFFSET.
  change (0 + PACKET_SIZE) with PACKET_SIZE.
  apply slice_assign_prefix; [apply le_n|exact Hm].
Qed.

(** X7: whatever the flags and whatever the command window holds, the
    handler leaves the command window as it found it. *)
Theorem handler_keeps_command_window `{Platform} (s : t) (flags : Z) :
  PACKET_SIZE <= List.length (_mem s) ->
  cmd_window (_mem (final (_irq_handler flags s))) = cmd_window (_mem s).
Proof.
  intros Hm. destruct (tidy_irq_handler flags s) as [Hc ->].
  now apply coherent_cmd_window.
Qed.

(** X8: handed something that is not a [Command], [_send_response] does
    not raise and does not write to the buffer: it logs the [TypeError] at
    error severity and returns. *)
Theorem send_response_rejects_other_objects `{Platform}
    (s : t) (type_name : string) (f1 f2 f3 f4 : float) :
  let r := _send_response (ObjOther type_name) f1 f2 f3 f4 s in
  outcome r = Ok tt /\
  _mem (final r) = _mem s /\
  assigns (steps r) = 0 /\
  logged (steps r)
  = [(Level.ERROR,
      ("<class 'TypeError'> raised sending response: expected command, not "
         ++ type_name)%string)].
Proof.
  intros r. subst r. destruct s as [lg id ad led i2c dbg tx mem mc].
  run. repeat split.
Qed.

(** ** What the response window can hold *)

Section Framed.
Context {SC : Scalars} {PF : Platform}.

Lemma framed_bind {A B : Type} (c : M A) (k : A -> M B) :
  framed c -> (forall a, framed (k a)) -> framed (bind c k).
Proof.
  intros Hc Hk s. specialize (Hc s). unfold bind.
  destruct (c s) as [[[a|e] s1] tr1]; proj; [|exact Hc].
  specialize (Hk a s1). destruct (k a s1) as [[r s2] tr2]; proj.
  apply Forall_app. now split.
Qed.

Lemma framed_try_except {A : Type} (body : M A) (handler : exc -> M A) :
  framed body -> (forall e, framed (handler e)) ->
  framed (try_except body handler).
Proof.
  intros Hc Hk s. specialize (Hc s). unfold try_except.
  destruct (body s) as [[[a|e] s1] tr1]; proj; [exact Hc|].
  specialize (Hk e s1). destruct (handler e s1) as [[r s2] tr2]; proj.
  apply Forall_app. now split.
Qed.

(** A body that assigns nothing is framed. *)
Lemma framed_silent {A : Type} (c : M A) : silent c -> framed c.
Proof.
  intros Hc s. specialize (Hc s). unfold assigns in Hc.
  induction (steps (c s)) as [|e tr IH]; [constructor|].
  cbn [filter] in Hc. destruct (is_assign e) eqn:E; [discriminate|].
  constructor; [|exact (IH Hc)].
  unfold frame_assign. unfold is_assign in E. now destruct (fst e).
Qed.

Lemma framed_send_response (command : pyobj) (a b c d : float) :
  framed (_send_response command a b c d).
Proof.
  intros s. destruct s as [lg id ad led i2c dbg tx mem mc].
  destruct command as [cmd|name]; run; [|repeat constructor].
  destruct (Payload_to_bytes (Payload_new cmd a b c d)) as [bs|e] eqn:E; run;
    [|repeat constructor].
  destruct dbg; run; repeat constructor.
  all: exists (Payload_new cmd a b c d); exact E.
Qed.

Ltac silent_tac :=
  repeat first
    [ apply silent_bind | apply silent_when | apply silent_ret
    | apply silent_raise | apply silent_get | apply silent_log
    | apply silent_when_debug | apply silent_from_bytes
    | apply silent_from_code | apply silent_to_bytes | apply silent_motor
    | apply silent_count_transaction | apply silent_led_toggle
    | apply silent_observe; discriminate | intro ].

Ltac framed_tac :=
  repeat first
    [ apply framed_send_response
    | apply framed_bind
    | apply framed_try_except
    | match goal with
      | |- framed (match ?x with _ => _ end) => destruct x
      | |- framed (if ?x then _ else _) => destruct x
      end
    | (apply framed_silent; solve [silent_tac])
    | intro ].

Lemma framed_handle_error (n : Z) (msg : string) :
  framed (_handle_error n msg).
Proof. unfold _handle_error. framed_tac. Qed.

Lemma framed_dispatch (command : option Command.t) (p : Payload) :
  framed (dispatch command p).
Proof.
  unfold dispatch, _handle_ping, _handle_stop, _handle_go,
    _handle_request, _handle_enable, _handle_disable, get_speeds.
  destruct command as [[]|]; try apply framed_handle_error; framed_tac.
Qed.

Lemma framed_after_clear (flags : Z) : framed (after_clear flags).
Proof.
  unfold after_clear, process_command, process_failed.
  apply framed_bind; [apply framed_try_except|].
  - apply framed_bind; [apply framed_silent; silent_tac|]. intros s.
    apply framed_bind; [apply framed_silent; silent_tac|]. intros p.
    apply framed_bind; [apply framed_silent; silent_tac|]. intros _.
    apply framed_bind; [apply framed_silent; silent_tac|]. intros c.
    apply framed_bind; [apply framed_dispatch|]. intros _.
    apply framed_silent; silent_tac.
  - intros e. destruct (is_ValueError e); [destruct (negb _)|];
      (apply framed_bind; [apply framed_silent; silent_tac|]; intros _);
      first [ apply framed_handle_error
            | apply framed_bind; [apply framed_silent; silent_tac|];
              intros _; apply framed_handle_error ].
  - intros _. apply framed_silent. silent_tac.
Qed.

End Framed.

(** What a coherent trace with one framed assignment at most does to the
    buffer: nothing, or the one assignment of an encoded frame. *)
Lemma one_frame_at_most `{Platform} (tr : trace) :
  forall m,
    coherent m tr -> assigns tr <= 1 -> Forall frame_assign tr ->
    (assigns tr = 0 /\ last_mem m tr = m) \/
    exists pre p d post,
      tr = pre
           ++ (EvAssign RSP_OFFSET (RSP_OFFSET + List.length d) d,
               slice_assign m RSP_OFFSET (RSP_OFFSET + List.length d) d)
           :: post /\
      assigns pre = 0 /\
      assigns post = 0 /\
      Payload_to_bytes p = Ok d /\
      last_mem m tr = slice_assign m RSP_OFFSET (RSP_OFFSET + List.length d) d.
Proof.
  induction tr as [|[ev m'] tr IH]; intros m Hc Ha Hf; [now left|].
  destruct Hc as [Hev Hc]. inversion Hf as [|? ? Hfe Hft]; subst.
  change (last_mem m ((ev, m') :: tr)) with (last_mem m ([(ev, m')] ++ tr)).
  rewrite last_mem_app. change (last_mem m [(ev, m')]) with m'.
  unfold assigns in Ha |- *. cbn [filter] in Ha |- *.
  destruct (is_assign (ev, m')) eqn:E.
  - cbn [List.length] in Ha.
    assert (Hq : assigns tr = 0) by (unfold assigns; lia).
    destruct ev; try discriminate E.
    destruct Hev as [-> ->]. destruct Hfe as (_ & -> & p & Hp).
    right. exists [], p, data, tr.
    repeat split; try assumption.
    now apply quiet_trace_keeps_buffer.
  - assert (Hm' : m' = m)
      by (destruct ev; try discriminate E; exact Hev).
    subst m'.
    destruct (IH m Hc Ha Hft) as [[Hq Hl]|(pre & p & d & post & -> & Hpre & Hpost & Hp & Hl)].
    + left. now split.
    + right. exists ((ev, m) :: pre), p, d, post.
      repeat split; try assumption.
      unfold assigns. cbn [filter]. rewrite E. exact Hpre.
Qed.

Lemma irq_handler_final `{Platform} (s : t) (flags : Z) :
  end_of_write flags ->
  final (_irq_handler flags s)
  = final
      (after_clear flags
         (set_mem
            (slice_assign (_mem s) RSP_OFFSET (RSP_OFFSET + PACKET_SIZE)
               (zeros PACKET_SIZE))
            s)).
Proof. intros Hf. now rewrite (irq_handler_end_of_write flags s Hf). Qed.

(** X9: with an encoder that gives frames of the fixed size, the handler
    first clears the response window, and what the window holds when it
    returns was put there during this very interrupt: either nothing more
    was assigned and the window is all zero, or exactly one frame given by
    the encoder was assigned after the clearing and the window holds that
    frame.  A response to an earlier command never stays in place. *)
Theorem response_is_blank_or_one_frame `{Platform} (s : t) (flags : Z) :
  well_sized ->
  PACKET_SIZE <= List.length (_mem s) ->
  end_of_write flags ->
  let r := _irq_handler flags s in
  let w := rsp_window (_mem (final r)) in
  let m0 :=
    slice_assign (_mem s) RSP_OFFSET (RSP_OFFSET + PACKET_SIZE)
      (zeros PACKET_SIZE) in
  exists rest,
    steps r =
      (EvAssign RSP_OFFSET (RSP_OFFSET + PACKET_SIZE) (zeros PACKET_SIZE), m0)
        :: rest /\
    ((assigns rest = 0 /\ _mem (final r) = m0 /\ w = zeros PACKET_SIZE) \/
     exists pre p d post,
       rest = pre
              ++ (EvAssign RSP_OFFSET (RSP_OFFSET + PACKET_SIZE) d,
                  slice_assign m0 RSP_OFFSET (RSP_OFFSET + PACKET_SIZE) d)
              :: post /\
       assigns pre = 0 /\
       assigns post = 0 /\
       Payload_to_bytes p = Ok d /\
       _mem (final r)
       = slice_assign m0 RSP_OFFSET (RSP_OFFSET + PACKET_SIZE) d /\
       w = d).
Proof.
  intros Hsize Hm Hf r w m0. subst r w.
  rewrite (irq_handler_end_of_write flags s Hf). fold m0. proj.
  exists (snd (after_clear flags (set_mem m0 s))).
  split; [reflexivity|].
  destruct (tidy_after_clear flags (set_mem m0 s)) as [Hc Hl].
  destruct (once_after_clear flags (set_mem m0 s)) as [Ha _].
  proj. cbn [_mem set_mem] in Hc, Hl.
  destruct (one_frame_at_most _ _ Hc Ha (framed_after_clear flags _))
    as [[Hq Hk]|(pre & p & d & post & Htr & Hpre & Hpost & Hp & Hk)].
  - left. rewrite Hl, Hk. repeat split; [exact Hq|].
    now apply cleared_window.
  - right. exists pre, p, d, post.
    pose proof (Hsize p d Hp) as Hd. rewrite Hd in *.
    rewrite Hl, Hk. repeat split; try assumption.
    assert (Hm0 : PACKET_SIZE <= List.length m0)
      by now apply slice_assign_length_ge.
    pose proof (slice_assign_window m0 PACKET_SIZE d Hm0) as W.
    rewrite Hd in W. exact W.
Qed.

Lemma coherent_same_length `{Platform} (tr : trace) :
  well_sized ->
  forall m,
    coherent m tr -> Forall frame_assign tr ->
    MEMORY_SIZE <= List.length m ->
    List.length (last_mem m tr) = List.length m.
Proof.
  intros Hsize. induction tr as [|[ev m'] tr IH]; intros m Hc Hf Hm;
    [reflexivity|].
  destruct Hc as [Hev Hc]. inversion Hf as [|? ? Hfe Hft]; subst.
  change (last_mem m ((ev, m') :: tr)) with (last_mem m ([(ev, m')] ++ tr)).
  rewrite last_mem_app. change (last_mem m [(ev, m')]) with m'.
  assert (Hm' : List.length m' = List.length m).
  { destruct ev; try (cbn [fst] in Hev; now subst m').
    destruct Hev as [-> ->]. destruct Hfe as (_ & -> & p & Hp).
    apply slice_assign_length. rewrite (Hsize p data Hp).
    unfold MEMORY_SIZE, RSP_OFFSET in *. lia. }
  rewrite IH; [exact Hm'|exact Hc|exact Hft|now rewrite Hm'].
Qed.

(** X10: with an encoder that gives frames of the fixed size, the buffer
    has [MEMORY_SIZE] bytes after any sequence of commands, if it had before. *)
Theorem buffer_keeps_its_size `{Platform}
    (flags : Z) (frames : list (list byte)) :
  well_sized ->
  end_of_write flags ->
  Forall (fun f => List.length f = PACKET_SIZE) frames ->
  forall s,
    List.length (_mem s) = MEMORY_SIZE ->
    List.length (_mem (fold_left (transact flags) frames s)) = MEMORY_SIZE.
Proof.
  intros Hsize Hf Hall. induction Hall as [|f frames Hlen _ IH]; intros s Hm;
    [exact Hm|].
  cbn [fold_left]. apply IH. unfold transact.
  assert (Hw : List.length (_mem (master_write f s)) = MEMORY_SIZE).
  { destruct s as [lg id ad led i2c dbg tx mem mc]. unfold master_write.
    cbn [_mem set_mem] in *. rewrite <- Hm. apply (slice_assign_length mem 0 f).
    unfold MEMORY_SIZE in Hm. lia. }
  rewrite (irq_handler_final _ flags Hf).
  set (m0 := slice_assign _ _ _ _).
  assert (Hm0 : List.length m0 = MEMORY_SIZE).
  { pose proof (slice_assign_length (_mem (master_write f s)) PACKET_SIZE
                  (zeros PACKET_SIZE)) as L.
    rewrite zeros_length in L. subst m0. unfold RSP_OFFSET.
    rewrite L; [exact Hw|unfold MEMORY_SIZE in Hw; lia]. }
  destruct (tidy_after_clear flags (set_mem m0 (master_write f s)))
    as [Hc ->].
  rewrite (coherent_same_length _ Hsize _ Hc (framed_after_clear flags _));
    cbn [_mem set_mem]; [exact Hm0|now rewrite Hm0].
Qed.

(** ** Construction *)

(** X11: for the configurations of type [Config] (the section is there,
    with an integer bus id and an address that is an integer or a string),
    and for no configuration at all: construction raises [ValueError] without
    a configuration, passes on whatever the normalising of a textual address
    raises, and succeeds for every other configuration of that type, even
    when the first response cannot be encoded; the object it returns is
    detached from the bus, has counted no transaction, has a blank command
    window and a disabled motor controller with zero speeds. *)
Theorem construction_outcomes `{Platform} (config : option Config) :
  match config with
  | None => init None = Raise (mkExc ValueError "missing configuration.")
  | Some cfg =>
      match address_of cfg with
      | Raise e => init (Some cfg) = Raise e
      | Ok address =>
          exists s,
            init (Some cfg) = Ok s /\
            _i2c_id s = cfg_i2c_id cfg /\
            _i2c_address s = address /\
            _i2c s = false /\
            _debug s = false /\
            _tx_count s = 0%Z /\
            cmd_window (_mem s) = zeros PACKET_SIZE /\
            MotorController.enabled (_motor_controller s) = false /\
            MotorController.get_speeds (_motor_controller s) = zero_speeds
      end
  end.
Proof.
  destruct config as [cfg|]; [|reflexivity].
  unfold init. destruct (address_of cfg) as [address|e]; [|reflexivity].
  cbv beta iota delta [MotorController.init]. run.
  assert (Hz : slice (zeros MEMORY_SIZE) 0 PACKET_SIZE = zeros PACKET_SIZE).
  { unfold MEMORY_SIZE.
    replace (2 * PACKET_SIZE) with (PACKET_SIZE + PACKET_SIZE) by lia.
    apply slice_zeros. }
  destruct (Payload_to_bytes (Payload_new Command.ACK f0_0 f0_0 f0_0 f0_0));
    run; eexists; (split; [reflexivity|]); run;
    rewrite ?slice_assign_prefix
      by (rewrite ?zeros_length; unfold MEMORY_SIZE; lia);
    repeat split; exact Hz.
Qed.

(** X12: when the encoder raises on the first ACK frame, construction
    succeeds all the same: the buffer is left all zero and the fault is
    logged at error severity before the ready message. *)
Theorem construction_survives_encoder_fault `{Platform}
    (cfg : Config) (address : Z) (e : exc) :
  address_of cfg = Ok address ->
  Payload_to_bytes (Payload_new Command.ACK f0_0 f0_0 f0_0 f0_0) = Raise e ->
  exists s,
    init (Some cfg) = Ok s /\
    _mem s = zeros MEMORY_SIZE /\
    _log s
    = [(Level.ERROR,
        (str_exc_type e ++ " raised sending response: " ++ str_exc e)%string);
       (Level.INFO,
        ("ready on bus " ++ str_int (cfg_i2c_id cfg) ++ " at "
           ++ fmt_0x02X address)%string)].
Proof.
  intros Ha He. unfold init. rewrite Ha.
  cbv beta iota delta [MotorController.init]. run. rewrite He. run.
  eexists. repeat split.
Qed.

(** ** Attaching to the bus and detaching *)

Ltac run_bus :=
  cbv beta iota zeta delta
    [enable disable hardware _clear_mem set_i2c bind ret get when log
     final outcome steps fst snd negb
     _log _i2c_id _i2c_address _led _i2c _debug _tx_count _mem
     _motor_controller set_log set_mem RSP_OFFSET CMD_OFFSET rsp_window
     cmd_window];
  change (0 + PACKET_SIZE) with PACKET_SIZE.

(** X13: [enable] on a detached object, when the bus takes the target and
    the handler, attaches it and leaves the buffer, the motor controller and
    the counter as they were; [enable] on the attached object does nothing
    but log at debug severity that it is enabled already. *)
Theorem enable_attaches_once `{Platform} `{Bus} (s : t) :
  _i2c s = false ->
  I2CTarget_new (_i2c_id s) (_i2c_address s) = Ok tt ->
  I2CTarget_irq (Z.lor IRQ_END_READ IRQ_END_WRITE) = Ok tt ->
  let s1 := final (enable s) in
  let r2 := enable s1 in
  outcome (enable s) = Ok tt /\
  _i2c s1 = true /\
  _mem s1 = _mem s /\
  _motor_controller s1 = _motor_controller s /\
  _tx_count s1 = _tx_count s /\
  outcome r2 = Ok tt /\
  final r2
  = set_log (_log s1 ++ [(Level.DEBUG, "I2C slave already enabled."%string)])
      s1.
Proof.
  intros Hi Hnew Hirq s1 r2. subst r2 s1.
  destruct s as [lg id ad led i2c dbg tx mem mc]. cbn [_i2c _i2c_id _i2c_address] in *.
  subst i2c. run_bus. rewrite Hnew. run_bus. rewrite Hirq. run_bus.
  repeat split.
Qed.

Lemma enable_attaches `{Platform} `{Bus} (s : t) :
  _i2c s = false ->
  I2CTarget_new (_i2c_id s) (_i2c_address s) = Ok tt ->
  I2CTarget_irq (Z.lor IRQ_END_READ IRQ_END_WRITE) = Ok tt ->
  outcome (enable s) = Ok tt /\
  _i2c (final (enable s)) = true /\
  _mem (final (enable s)) = _mem s.
Proof.
  intros Hi Hnew Hirq.
  destruct s as [lg id ad led i2c dbg tx mem mc].
  cbn [_i2c _i2c_id _i2c_address] in *.
  subst i2c. run_bus. rewrite Hnew. run_bus. rewrite Hirq. run_bus.
  repeat split.
Qed.

Lemma init_ack_state `{Platform}
    (cfg : Config) (address : Z) (ack : list byte) :
  address_of cfg = Ok address ->
  Payload_to_bytes (Payload_new Command.ACK f0_0 f0_0 f0_0 f0_0) = Ok ack ->
  List.length ack = PACKET_SIZE ->
  exists s,
    init (Some cfg) = Ok s /\
    _i2c_id s = cfg_i2c_id cfg /\
    _i2c_address s = address /\
    _i2c s = false /\
    rsp_window (_mem s) = ack.
Proof.
  intros Ha Hack Hlen. unfold init. rewrite Ha.
  cbv beta iota delta [MotorController.init]. run. rewrite Hack. run.
  eexists. split; [reflexivity|]. run. repeat split.
  rewrite <- Hlen. apply slice_assign_window.
  rewrite zeros_length. unfold MEMORY_SIZE. lia.
Qed.

(** X14: after construction and [enable], before any command, the response
    window holds the encoded ACK frame with four zero fields that
    construction put there. *)
Theorem first_read_sees_ack `{Platform} `{Bus}
    (cfg : Config) (address : Z) (ack : list byte) :
  address_of cfg = Ok address ->
  Payload_to_bytes (Payload_new Command.ACK f0_0 f0_0 f0_0 f0_0) = Ok ack ->
  List.length ack = PACKET_SIZE ->
  I2CTarget_new (cfg_i2c_id cfg) address = Ok tt ->
  I2CTarget_irq (Z.lor IRQ_END_READ IRQ_END_WRITE) = Ok tt ->
  exists s,
    init (Some cfg) = Ok s /\
    outcome (enable s) = Ok tt /\
    _i2c (final (enable s)) = true /\
    rsp_window (_mem (final (enable s))) = ack.
Proof.
  intros Ha Hack Hlen Hnew Hirq.
  destruct (init_ack_state cfg address ack Ha Hack Hlen)
    as (s & Hs & Hid & Had & Hi & Hw).
  exists s. split; [exact Hs|].
  rewrite <- Hid, <- Had in Hnew.
  destruct (enable_attaches s Hi Hnew Hirq) as (Ho & Hi1 & Hm1).
  repeat split; [exact Ho|exact Hi1|now rewrite Hm1].
Qed.

(** X15: when the bus takes the target but raises on the registration of
    the handler, [enable] passes the exception on and leaves the object
    marked as attached; a second [enable] then returns at once, logging that
    the object is enabled already, and does not register the handler. *)
Theorem failed_registration_is_not_retried `{Platform} `{Bus}
    (s : t) (e : exc) :
  _i2c s = false ->
  I2CTarget_new (_i2c_id s) (_i2c_address s) = Ok tt ->
  I2CTarget_irq (Z.lor IRQ_END_READ IRQ_END_WRITE) = Raise e ->
  let s1 := final (enable s) in
  outcome (enable s) = Raise e /\
  _i2c s1 = true /\
  outcome (enable s1) = Ok tt /\
  logged (steps (enable s1))
  = [(Level.DEBUG, "I2C slave already enabled."%string)].
Proof.
  intros Hi Hnew Hirq s1. subst s1.
  destruct s as [lg id ad led i2c dbg tx mem mc]. cbn [_i2c _i2c_id _i2c_address] in *.
  subst i2c. run_bus. rewrite Hnew. run_bus. rewrite Hirq. run_bus.
  repeat split.
Qed.

(** X16: when the bus refuses the target, [enable] passes the exception on
    and leaves the object detached and its buffer as it was. *)
Theorem refused_target_leaves_detached `{Platform} `{Bus}
    (s : t) (e : exc) :
  _i2c s = false ->
  I2CTarget_new (_i2c_id s) (_i2c_address s) = Raise e ->
  outcome (enable s) = Raise e /\
  _i2c (final (enable s)) = false /\
  _mem (final (enable s)) = _mem s.
Proof.
  intros Hi Hnew.
  destruct s as [lg id ad led i2c dbg tx mem mc]. cbn [_i2c _i2c_id _i2c_address] in *.
  subst i2c. run_bus. rewrite Hnew. run_bus. repeat split.
Qed.

(** X17: [disable] on an attached object replaces the buffer by
    [MEMORY_SIZE] zero bytes and detaches the object; it leaves the motor
    controller, with its speeds, and the counter as they were.  A second
    [disable] does nothing at all, and an [enable] after it finds the
    response window all zero, not the ACK frame of construction. *)
Theorem disable_blanks_the_buffer `{Platform} `{Bus} (s : t) :
  _i2c s = true ->
  I2CTarget_deinit = Ok tt ->
  I2CTarget_new (_i2c_id s) (_i2c_address s) = Ok tt ->
  I2CTarget_irq (Z.lor IRQ_END_READ IRQ_END_WRITE) = Ok tt ->
  let s1 := final (disable s) in
  let s2 := final (enable s1) in
  outcome (disable s) = Ok tt /\
  _i2c s1 = false /\
  _mem s1 = zeros MEMORY_SIZE /\
  _motor_controller s1 = _motor_controller s /\
  _tx_count s1 = _tx_count s /\
  disable s1 = (Ok tt, s1, []) /\
  _i2c s2 = true /\
  rsp_window (_mem s2) = zeros PACKET_SIZE.
Proof.
  intros Hi Hde Hnew Hirq s1 s2. subst s2 s1.
  destruct s as [lg id ad led i2c dbg tx mem mc]. cbn [_i2c _i2c_id _i2c_address] in *.
  subst i2c. run_bus. rewrite Hde. run_bus. rewrite Hnew. run_bus.
  rewrite Hirq. run_bus. repeat split.
  unfold MEMORY_SIZE.
  replace (2 * PACKET_SIZE) with (PACKET_SIZE + PACKET_SIZE) by lia.
  unfold slice, zeros. rewrite repeat_app, skipn_app, repeat_length, Nat.sub_diag.
  rewrite skipn_all2 by (rewrite repeat_length; lia). cbn [app skipn].
  replace (PACKET_SIZE + PACKET_SIZE - PACKET_SIZE) with PACKET_SIZE by lia.
  apply firstn_all2. rewrite repeat_length. lia.
Qed.

(** ** More on the motor controller *)

Lemma step_speeds `{Platform} (mc : MotorController.t) (o : MotorController.op) :
  let v := MotorController.get_speeds (MotorController.step mc o) in
  v = zero_speeds \/ v = MotorController.get_speeds mc \/
  exists a b c d, o = MotorController.Go a b c d /\ v = (a, b, c, d).
Proof.
  destruct mc as [lg comp v1 v2 v3 v4 dbg].
  destruct o as [|a b c d| | |], comp, dbg; cbn; auto;
    right; right; exists a, b, c, d; auto.
Qed.

Lemma run_speeds `{Platform} (ops : list MotorController.op) :
  forall mc,
    let v := MotorController.get_speeds (MotorController.run ops mc) in
    v = zero_speeds \/ v = MotorController.get_speeds mc \/
    exists a b c d, In (MotorController.Go a b c d) ops /\ v = (a, b, c, d).
Proof.
  induction ops as [|o ops IH]; intros mc; [right; left; reflexivity|].
  cbn [MotorController.run fold_left].
  destruct (IH (MotorController.step mc o)) as [Hz|[Hs|(a & b & c & d & Hin & Hv)]].
  - left. exact Hz.
  - cbv zeta. unfold MotorController.run in Hs. rewrite Hs.
    destruct (step_speeds mc o) as [Hz|[Hm|(a & b & c & d & -> & Hv)]].
    + left. exact Hz.
    + right. left. exact Hm.
    + right. right. exists a, b, c, d. split; [now left|exact Hv].
  - right. right. exists a, b, c, d. split; [now right|exact Hv].
Qed.

(** X18: whatever sequence of operations is applied to a controller after
    its construction, the speeds it stores are four zeros or the four
    arguments, as they were passed, of one of the [go] calls of the
    sequence. *)
Theorem stored_speeds_come_from_go `{Platform}
    (config : Config) (mc0 : MotorController.t)
    (ops : list MotorController.op) :
  MotorController.init (Some config) = Ok mc0 ->
  let v := MotorController.get_speeds (MotorController.run ops mc0) in
  v = zero_speeds \/
  exists a b c d, In (MotorController.Go a b c d) ops /\ v = (a, b, c, d).
Proof.
  intros Hinit v. subst v. injection Hinit as <-.
  destruct (run_speeds ops
              (MotorController.mk
                 [(Level.INFO, "initialising motor controller…"%string);
                  (Level.INFO, "ready."%string)]
                 (Component.init false) f0_0 f0_0 f0_0 f0_0 false))
    as [Hz|[Hs|Hgo]].
  - left. exact Hz.
  - left. exact Hs.
  - right. exact Hgo.
Qed.

Lemma step_closed `{Platform} (mc : MotorController.t) (o : MotorController.op) :
  MotorController.closed mc = true ->
  MotorController.closed (MotorController.step mc o) = true /\
  MotorController.get_speeds (MotorController.step mc o)
  = MotorController.get_speeds mc.
Proof.
  destruct mc as [lg comp v1 v2 v3 v4 dbg].
  destruct o, comp, dbg; cbn; intros Hc; try discriminate; auto.
Qed.

Lemma run_closed `{Platform} (ops : list MotorController.op) :
  forall mc,
    MotorController.closed mc = true ->
    MotorController.closed (MotorController.run ops mc) = true /\
    MotorController.get_speeds (MotorController.run ops mc)
    = MotorController.get_speeds mc.
Proof.
  induction ops as [|o ops IH]; intros mc Hc; [now split|].
  cbn [MotorController.run fold_left].
  destruct (step_closed mc o Hc) as [Hc1 Hs1].
  destruct (IH _ Hc1) as [Hc2 Hs2]. unfold MotorController.run in *.
  split; [exact Hc2|now rewrite Hs2].
Qed.

(** X19: once [close] has been called, whatever operations follow, the
    controller stays closed and disabled, keeps the speeds it had when
    [close] returned, which are zero if it was enabled, and refuses [go] and
    [stop] with FAIL. *)
Theorem closed_controller_is_inert `{Platform}
    (mc : MotorController.t) (ops : list MotorController.op)
    (a b c d : float) :
  let after := MotorController.run ops (MotorController.close mc) in
  MotorController.closed after = true /\
  MotorController.enabled after = false /\
  MotorController.get_speeds after
  = MotorController.get_speeds (MotorController.close mc) /\
  MotorController.go a b c d after = (Response.FAIL, after) /\
  MotorController.stop after = (Response.FAIL, after) /\
  (MotorController.enabled mc = true ->
   MotorController.get_speeds after = zero_speeds).
Proof.
  intros after. subst after.
  assert (Hc : MotorController.closed (MotorController.close mc) = true).
  { destruct mc as [lg comp v1 v2 v3 v4 dbg]. now destruct comp, dbg. }
  destruct (run_closed ops _ Hc) as [Hc' Hs].
  assert (He : MotorController.enabled
                 (MotorController.run ops (MotorController.close mc)) = false).
  { revert Hc'. generalize (MotorController.run ops (MotorController.close mc)).
    intros [lg comp v1 v2 v3 v4 dbg]. now destruct comp. }
  repeat split; try assumption.
  - now apply motor_go_disabled.
  - now apply motor_stop_disabled.
  - intros Hen. rewrite Hs.
    destruct mc as [lg comp v1 v2 v3 v4 dbg].
    destruct comp; try discriminate Hen. now destruct dbg.
Qed.

(** ** From construction *)

Lemma init_returns `{Platform} (cfg : Config) (address : Z) :
  address_of cfg = Ok address -> exists s, init (Some cfg) = Ok s.
Proof.
  intros Ha. unfold init. rewrite Ha.
  cbv beta iota delta [MotorController.init]. run.
  destruct (Payload_to_bytes (Payload_new Command.ACK f0_0 f0_0 f0_0 f0_0));
    run; eexists; reflexivity.
Qed.

Lemma init_state `{Platform} (cfg : Config) (s : t) :
  init (Some cfg) = Ok s ->
  PACKET_SIZE <= List.length (_mem s) /\
  _motor_controller s
  = MotorController.mk
      [(Level.INFO, "initialising motor controller…"%string);
       (Level.INFO, "ready."%string)]
      Component.Disabled f0_0 f0_0 f0_0 f0_0 false.
Proof.
  unfold init. destruct (address_of cfg) as [address|e]; [|discriminate].
  cbv beta iota delta [MotorController.init]. run.
  assert (Hz : PACKET_SIZE <= List.length (zeros MEMORY_SIZE))
    by (rewrite zeros_length; unfold MEMORY_SIZE; lia).
  destruct (Payload_to_bytes (Payload_new Command.ACK f0_0 f0_0 f0_0 f0_0));
    run; intros Hs; injection Hs as <-; run; split; try reflexivity;
    [now apply slice_assign_length_ge|exact Hz].
Qed.

Lemma enable_is_applied `{Platform}
    (s : t) (flags : Z) (p : Payload) :
  PACKET_SIZE <= List.length (_mem s) ->
  end_of_write flags ->
  Payload_from_bytes (cmd_window (_mem s)) = Ok p ->
  Command_from_code (payload_code p) = Ok (Some Command.ENABLE) ->
  _motor_controller (final (_irq_handler flags s))
  = MotorController.enable (_motor_controller s).
Proof.
  intros Hm Hf Hp Hc. open_state s.
  enter. rewrite Hp. run. rewrite Hc. destruct dbg; crunch; reflexivity.
Qed.

(** X20: on a freshly constructed object a GO is refused with the encoded
    ERROR frame with four zero fields and the speeds stay zero; after an
    ENABLE the same GO is answered with the encoded ACK frame carrying its
    four values, which are then the stored speeds. *)
Theorem go_needs_enable `{Platform}
    (cfg : Config) (address : Z) (flags : Z)
    (go_frame enable_frame : list byte) (p : Payload) (err ack : list byte) :
  well_sized ->
  address_of cfg = Ok address ->
  end_of_write flags ->
  List.length go_frame = PACKET_SIZE ->
  Payload_from_bytes go_frame = Ok p ->
  Command_from_code (payload_code p) = Ok (Some Command.GO) ->
  List.length enable_frame = PACKET_SIZE ->
  verb_of enable_frame = Some Command.ENABLE ->
  Payload_to_bytes (Payload_new Command.ERROR f0_0 f0_0 f0_0 f0_0) = Ok err ->
  Payload_to_bytes
    (Payload_new Command.ACK (pfwd p) (sfwd p) (paft p) (saft p)) = Ok ack ->
  exists s0,
    init (Some cfg) = Ok s0 /\
    let s1 := transact flags s0 go_frame in
    let s2 := transact flags s1 enable_frame in
    let s3 := transact flags s2 go_frame in
    rsp_window (_mem s1) = err /\
    MotorController.get_speeds (_motor_controller s1) = zero_speeds /\
    rsp_window (_mem s3) = ack /\
    MotorController.get_speeds (_motor_controller s3)
    = (pfwd p, sfwd p, paft p, saft p).
Proof.
  intros Hsize Ha Hf Hgl Hgp Hgc Hel Hev Herr Hack.
  destruct (init_returns cfg address Ha) as [s0 Hs0].
  exists s0. split; [exact Hs0|].
  destruct (init_state cfg s0 Hs0) as [Hm0 Hmc0].
  intros s1 s2 s3.
  (* the first GO is refused *)
  destruct (master_write_cmd_window s0 go_frame Hgl Hm0) as (Hw0 & Hm0' & Hk0).
  assert (H1 : _motor_controller s1 = _motor_controller s0 /\
               rsp_window (_mem s1) = err).
  { apply (rejected_when_disabled (master_write go_frame s0) flags p
             Command.GO err); rewrite ?Hw0, ?Hk0, ?Hmc0;
      try assumption; auto.
    exact (Hsize _ _ Herr). }
  destruct H1 as [Hmc1 Hr1].
  split; [exact Hr1|]. split; [rewrite Hmc1, Hmc0; reflexivity|].
  (* ENABLE *)
  assert (Hm1 : PACKET_SIZE <= List.length (_mem s1))
    by now apply transact_buffer.
  destruct (master_write_cmd_window s1 enable_frame Hel Hm1)
    as (Hw1 & Hm1' & Hk1).
  unfold verb_of in Hev.
  destruct (Payload_from_bytes enable_frame) as [q|] eqn:Hq; [|discriminate].
  destruct (Command_from_code (payload_code q)) as [[c|]|] eqn:Hc;
    try discriminate.
  injection Hev as ->.
  assert (Hmc2 : MotorController.enabled (_motor_controller s2) = true).
  { assert (E : _motor_controller s2
                = MotorController.enable (_motor_controller s1)).
    { subst s2. unfold transact. rewrite <- Hk1.
      apply (enable_is_applied (master_write enable_frame s1) flags q);
        rewrite ?Hw1; assumption. }
    rewrite E, Hmc1, Hmc0. reflexivity. }
  (* the second GO is accepted *)
  assert (Hm2 : PACKET_SIZE <= List.length (_mem s2))
    by now apply transact_buffer.
  destruct (master_write_cmd_window s2 go_frame Hgl Hm2) as (Hw2 & Hm2' & Hk2).
  assert (H3 : rsp_window (_mem s3) = ack /\
               MotorController.get_speeds (_motor_controller s3)
                 = (pfwd p, sfwd p, paft p, saft p) /\
               MotorController.enabled (_motor_controller s3) = true).
  { apply (go_is_acknowledged (master_write go_frame s2) flags p ack);
      rewrite ?Hw2, ?Hk2; try assumption. exact (Hsize _ _ Hack). }
  destruct H3 as (Hr3 & Hs3 & _). split; assumption.
Qed.

(** * The properties on the rig *)

(** ** With an encoder that breaks down *)

Section FaultyEncoder.
Local Existing Instance Rig.scalars.
Local Existing Instance Rig.faulty.

(** C2, as stated, fails: the encoder raises while the PING response is
    written; the fault stays inside the handler, but it is only logged, and
    the response window is left all zero instead of holding the ERROR frame
    with the internal-fault code. *)
Lemma encoder_fault_goes_unanswered :
  let s := master_write (Rig.frame Command.PING x00 x00 x00 x00) Rig.booted in
  let r := _irq_handler Rig.wrote s in
  Payload_to_bytes (Payload_new Command.PING f0_3 f0_3 f0_3 f0_3)
    = Raise (mkExc (OtherException "RuntimeError") "encoder fault") /\
  Payload_to_bytes (Payload_new Command.ERROR (float_of_int 4) f0_0 f0_0 f0_0)
    = Ok [x7a; x09; x28; x00; x00; x00] /\
  outcome r = Ok tt /\
  rsp_window (_mem (final r)) = zeros 6 /\
  rsp_window (_mem (final r)) <> [x7a; x09; x28; x00; x00; x00] /\
  logged (steps r)
  = [(Level.ERROR,
      "<class 'RuntimeError'> raised sending response: encoder fault"%string)].
Proof. vm_compute. repeat split; discriminate. Qed.

End FaultyEncoder.

(** ** With a decoder that checks the code *)

Section CheckedDecoder.
Local Existing Instance Rig.scalars.
Local Existing Instance Rig.checked.

Lemma malformed_payload_is_answered_with_error_2_witness :
  let s := master_write [x7a; xff; x00; x00; x00; x00] Rig.booted in
  let r := _irq_handler Rig.wrote s in
  rsp_window (_mem (final r)) = [x7a; x09; x14; x00; x00; x00] /\
  _motor_controller (final r) = _motor_controller s /\
  _tx_count (final r) = _tx_count s /\
  In (Level.ERROR, "payload error: invalid command code"%string)
     (logged (steps r)) /\
  In (Level.ERROR, "Error 2: invalid command code"%string) (logged (steps r)).
Proof.
  intros s.
  apply (malformed_payload_is_answered_with_error_2 s Rig.wrote
           (mkExc ValueError "invalid command code")
           [x7a; x09; x14; x00; x00; x00]).
  - vm_compute. lia.
  - vm_compute. discriminate.
  - left. reflexivity.
  - reflexivity.
  - reflexivity.
  - reflexivity.
  - reflexivity.
Defined.

End CheckedDecoder.

(** ** With an encoder that never works *)

Section MuteEncoder.
Local Existing Instance Rig.scalars.
Local Existing Instance Rig.mute.

Lemma construction_survives_encoder_fault_witness :
  exists s,
    init (Some Rig.config) = Ok s /\
    _mem s = zeros MEMORY_SIZE /\
    _log s
    = [(Level.ERROR,
        "<class 'RuntimeError'> raised sending response: encoder fault"%string);
       (Level.INFO, "ready on bus 1 at 0x43"%string)].
Proof.
  exact (construction_survives_encoder_fault Rig.config 67%Z
           (mkExc (OtherException "RuntimeError") "encoder fault")
           eq_refl eq_refl).
Defined.

End MuteEncoder.

(** ** On a bus that registers no handler *)

Section DeafBus.
Local Existing Instance Rig.scalars.
Local Existing Instance Rig.platform.
Local Existing Instance Rig.deaf_bus.

Lemma failed_registration_is_not_retried_witness :
  let s1 := final (enable Rig.booted) in
  outcome (enable Rig.booted)
  = Raise (mkExc (OtherException "OSError") "irq not supported") /\
  _i2c s1 = true /\
  outcome (enable s1) = Ok tt /\
  logged (steps (enable s1))
  = [(Level.DEBUG, "I2C slave already enabled."%string)].
Proof.
  apply (failed_registration_is_not_retried Rig.booted
           (mkExc (OtherException "OSError") "irq not supported"));
    reflexivity.
Defined.

End DeafBus.

(** ** With the working encoder *)

Import Rig.

Lemma rig_boots : init (Some config) = Ok booted.
Proof. reflexivity. Qed.

(** The address may as well be configured as a hexadecimal literal. *)
Lemma rig_boots_at_hex_address :
  init (Some (mkConfig 1 (AddrStr "0x43"))) = Ok booted.
Proof. reflexivity. Qed.

Lemma response_window_zero_until_reply_witness :
  let s := master_write (frame Command.GO x0a x0a xf6 xf6) booted in
  let r := _irq_handler wrote s in
  exists m0 rest,
    steps r =
      (EvAssign RSP_OFFSET (RSP_OFFSET + PACKET_SIZE) (zeros PACKET_SIZE), m0)
        :: rest /\
    rsp_window m0 = zeros PACKET_SIZE /\
    assigns rest <= 1 /\
    Forall (fun e => rsp_window (snd e) = zeros PACKET_SIZE)
      (before_final_assign rest) /\
    m0 = slice_assign (_mem s) RSP_OFFSET (RSP_OFFSET + PACKET_SIZE)
           (zeros PACKET_SIZE) /\
    rest = steps (after_clear wrote (set_mem m0 s)) /\
    final r = final (after_clear wrote (set_mem m0 s)) /\
    coherent (_mem s) (steps r) /\
    _mem (final r) = last_mem (_mem s) (steps r) /\
    (assigns rest = 0 -> _mem (final r) = m0).
Proof.
  intros s. apply (response_window_zero_until_reply s wrote).
  - vm_compute. lia.
  - vm_compute. discriminate.
Defined.

Lemma faults_stay_inside_handler_witness :
  let s := master_write [x7a; xff; x00; x00; x00; x00] booted in
  outcome (_irq_handler wrote s) = Ok tt /\
  rsp_window (_mem (final (_irq_handler wrote s)))
  = [x7a; x09; x28; x00; x00; x00].
Proof.
  intros s.
  destruct (faults_stay_inside_handler s wrote) as (Ho & Hfault & _).
  - vm_compute. lia.
  - vm_compute. discriminate.
  - split; [exact Ho|].
    apply (Hfault (mkExc (OtherException "KeyError") "ff")).
    + right. eexists. split; reflexivity.
    + reflexivity.
    + reflexivity.
    + reflexivity.
Defined.

Lemma bad_sync_header_logs_an_error_witness :
  let s := master_write probe booted in
  let r := _irq_handler wrote s in
  rsp_window (_mem (final r)) = [x7a; x09; x1e; x00; x00; x00] /\
  In (Level.WARN, "payload warning: invalid sync header"%string)
     (logged (steps r)) /\
  In (Level.ERROR, "Error 3: invalid sync header"%string) (logged (steps r)).
Proof.
  intros s.
  apply (bad_sync_header_logs_an_error s wrote
           (mkExc ValueError "invalid sync header")
           [x7a; x09; x1e; x00; x00; x00]).
  - vm_compute. lia.
  - vm_compute. discriminate.
  - reflexivity.
  - reflexivity.
  - reflexivity.
  - reflexivity.
  - reflexivity.
Defined.

(** C4, as stated, fails: a bus scan leaves a frame that does not decode;
    the handler answers it with an error frame, and neither counts the
    transaction nor toggles the indicator. *)
Lemma failed_decode_is_not_counted :
  let s' := transact wrote booted probe in
  rsp_window (_mem s') = [x7a; x09; x1e; x00; x00; x00] /\
  _tx_count s' = _tx_count booted /\
  _led s' = _led booted /\
  _tx_count s' <> (_tx_count booted + 1)%Z /\
  _led s' <> negb (_led booted).
Proof. vm_compute. repeat split; discriminate. Qed.

Lemma transaction_counted_when_dispatched_witness :
  let s := master_write (frame Command.PING x00 x00 x00 x00) booted in
  let r := _irq_handler wrote s in
  let s' := final r in
  _tx_count s' = (if decodes s then _tx_count s + 1 else _tx_count s)%Z /\
  _led s' = (if decodes s then negb (_led s) else _led s) /\
  (forall p command,
     Payload_from_bytes (cmd_window (_mem s)) = Ok p ->
     Command_from_code (payload_code p) = Ok command ->
     let m0 :=
       slice_assign (_mem s) RSP_OFFSET (RSP_OFFSET + PACKET_SIZE)
         (zeros PACKET_SIZE) in
     let rx := ("rx: " ++ str_payload p)%string in
     let s0 :=
       if _debug s then set_log (_log s ++ [(Level.DEBUG, rx)]) (set_mem m0 s)
       else set_mem m0 s in
     exists s1 handled,
       dispatch command p s0 = (Ok tt, s1, handled) /\
       _tx_count s1 = _tx_count s /\
       _led s1 = _led s /\
       existsb is_count handled = false /\
       steps r
       = ((EvAssign RSP_OFFSET (RSP_OFFSET + PACKET_SIZE) (zeros PACKET_SIZE),
           m0)
            :: (EvFromBytes (cmd_window (_mem s)), m0)
            :: (if _debug s then [(EvLog Level.DEBUG rx, m0)] else [])
            ++ [(EvFromCode (payload_code p), m0)])
           ++ handled
           ++ [(EvTxCount, _mem s1); (EvLedToggle, _mem s1)]
           ++ (if _debug s && negb (Z.land wrote IRQ_END_READ =? 0)%Z
               then [(EvLog Level.DEBUG "master read response", _mem s1)]
               else []) /\
       _mem s' = _mem s1 /\
       _motor_controller s' = _motor_controller s1 /\
       _tx_count s' = (_tx_count s1 + 1)%Z /\
       _led s' = negb (_led s1)) /\
  (forall e,
     fault_before_dispatch s e ->
     let answer :=
       Payload_new Command.ERROR (float_of_int (code_of_fault e))
         f0_0 f0_0 f0_0 in
     existsb is_count (steps r) = false /\
     existsb is_motor (steps r) = false /\
     _tx_count s' = _tx_count s /\
     _led s' = _led s /\
     _motor_controller s' = _motor_controller s /\
     In (EvToBytes answer) (map fst (steps r)) /\
     match Payload_to_bytes answer with
     | Ok bs => List.length bs = PACKET_SIZE -> rsp_window (_mem s') = bs
     | Raise _ => rsp_window (_mem s') = zeros PACKET_SIZE
     end).
Proof.
  intros s. apply (transaction_counted_when_dispatched s wrote).
  - vm_compute. lia.
  - vm_compute. discriminate.
Defined.

Lemma disabled_controller_is_at_rest_witness :
  let mc0 :=
    MotorController.mk
      [(Level.INFO, "initialising motor controller…"%string);
       (Level.INFO, "ready."%string)]
      Component.Disabled 0%Z 0%Z 0%Z 0%Z false in
  let ops :=
    [MotorController.Enable;
     MotorController.Go 10%Z 10%Z (-10)%Z (-10)%Z;
     MotorController.Disable] in
  MotorController.enabled mc0 = false /\
  MotorController.get_speeds mc0 = zero_speeds /\
  (MotorController.enabled (MotorController.run ops mc0) = false ->
   MotorController.get_speeds (MotorController.run ops mc0) = zero_speeds /\
   MotorController.get_speeds
     (MotorController.enable (MotorController.run ops mc0)) = zero_speeds).
Proof.
  intros mc0 ops.
  apply (disabled_controller_is_at_rest config mc0 ops).
  reflexivity.
Defined.

(** C6, as stated, fails: the controller runs at (1.0, 1.0, -1.0, -1.0) when
    it is disabled; the STOP that follows is refused with an ERROR frame, and
    the stored speeds are then the zeros that the disable left, not the
    speeds from before the disable. *)
Lemma speeds_before_disable_are_lost :
  let s1 := transact wrote moving (frame Command.DISABLE x00 x00 x00 x00) in
  let s2 := transact wrote s1 (frame Command.STOP x00 x00 x00 x00) in
  MotorController.get_speeds (_motor_controller moving)
  = (10, 10, -10, -10)%Z /\
  MotorController.stop (_motor_controller s1)
  = (Response.FAIL, _motor_controller s1) /\
  rsp_window (_mem s2) = [x7a; x09; x00; x00; x00; x00] /\
  MotorController.get_speeds (_motor_controller s2) = (0, 0, 0, 0)%Z /\
  MotorController.get_speeds (_motor_controller s2)
  <> MotorController.get_speeds (_motor_controller moving).
Proof. vm_compute. repeat split; discriminate. Qed.

Lemma rejected_after_disable_witness :
  let s1 := transact wrote moving (frame Command.DISABLE x00 x00 x00 x00) in
  let s2 := transact wrote s1 (frame Command.STOP x00 x00 x00 x00) in
  let mc1 := _motor_controller s1 in
  mc1 = MotorController.disable (_motor_controller moving) /\
  MotorController.stop mc1 = (Response.FAIL, mc1) /\
  (forall f1 f2 f3 f4,
     MotorController.go f1 f2 f3 f4 mc1 = (Response.FAIL, mc1)) /\
  _motor_controller s2 = mc1 /\
  rsp_window (_mem s2) = [x7a; x09; x00; x00; x00; x00].
Proof.
  apply (rejected_after_disable moving wrote
           (frame Command.DISABLE x00 x00 x00 x00)
           (frame Command.STOP x00 x00 x00 x00)
           Command.STOP [x7a; x09; x00; x00; x00; x00]).
  - vm_compute. lia.
  - vm_compute. discriminate.
  - reflexivity.
  - reflexivity.
  - reflexivity.
  - reflexivity.
  - left. reflexivity.
  - reflexivity.
  - reflexivity.
Defined.

Lemma go_then_request_witness :
  let s := transact wrote booted (frame Command.ENABLE x00 x00 x00 x00) in
  let go_frame := frame Command.GO x0a x0a xf6 xf6 in
  let between :=
    [frame Command.PING x00 x00 x00 x00; probe;
     frame Command.REQUEST x00 x00 x00 x00;
     frame Command.ENABLE x00 x00 x00 x00] in
  let request_frame := frame Command.REQUEST x00 x00 x00 x00 in
  let went :=
    MotorController.go 10%Z 10%Z (-10)%Z (-10)%Z (_motor_controller s) in
  let s1 := transact wrote s go_frame in
  let s2 := fold_left (transact wrote) between s1 in
  let s3 := transact wrote s2 request_frame in
  fst went = Response.OKAY /\
  MotorController.get_speeds (snd went) = (10, 10, -10, -10)%Z /\
  rsp_window (_mem s1) = [x7a; x07; x0a; x0a; xf6; xf6] /\
  MotorController.get_speeds (_motor_controller s1) = (10, 10, -10, -10)%Z /\
  rsp_window (_mem s3) = [x7a; x08; x0a; x0a; xf6; xf6].
Proof.
  apply (go_then_request
           (transact wrote booted (frame Command.ENABLE x00 x00 x00 x00))
           wrote (frame Command.GO x0a x0a xf6 xf6)
           (frame Command.REQUEST x00 x00 x00 x00)
           [frame Command.PING x00 x00 x00 x00; probe;
            frame Command.REQUEST x00 x00 x00 x00;
            frame Command.ENABLE x00 x00 x00 x00]
           (@mkPayload scalars x03 10%Z 10%Z (-10)%Z (-10)%Z)
           [x7a; x07; x0a; x0a; xf6; xf6] [x7a; x08; x0a; x0a; xf6; xf6]).
  - vm_compute. lia.
  - vm_compute. discriminate.
  - reflexivity.
  - reflexivity.
  - reflexivity.
  - reflexivity.
  - repeat constructor.
  - reflexivity.
  - reflexivity.
  - reflexivity.
  - reflexivity.
  - reflexivity.
  - reflexivity.
Defined.

Lemma send_response_keeps_command_window_witness :
  let s := master_write (frame Command.GO x0a x0a xf6 xf6) booted in
  let bs := [x7a; x07; x0a; x0a; xf6; xf6] in
  let s' :=
    final (_send_response (ObjCommand Command.ACK) 10%Z 10%Z (-10)%Z (-10)%Z s) in
  cmd_window (_mem s') = cmd_window (_mem s) /\
  rsp_window (_mem s') = bs /\
  List.length (_mem s') = MEMORY_SIZE.
Proof.
  intros s bs.
  apply (send_response_keeps_command_window s Command.ACK
           10%Z 10%Z (-10)%Z (-10)%Z bs);
    reflexivity.
Defined.

Lemma ping_is_answered_with_ping_witness :
  let s := master_write (frame Command.PING x00 x00 x00 x00) booted in
  let r := _irq_handler wrote s in
  outcome r = Ok tt /\
  rsp_window (_mem (final r)) = [x7a; x01; x03; x03; x03; x03] /\
  _motor_controller (final r) = _motor_controller s /\
  existsb is_motor (steps r) = false.
Proof.
  intros s.
  apply (ping_is_answered_with_ping s wrote
           (@mkPayload scalars x01 0%Z 0%Z 0%Z 0%Z)
           [x7a; x01; x03; x03; x03; x03]).
  - vm_compute. lia.
  - vm_compute. discriminate.
  - reflexivity.
  - reflexivity.
  - reflexivity.
  - reflexivity.
Defined.

Lemma init_publishes_ack_witness :
  exists s,
    init (Some config) = Ok s /\
    rsp_window (_mem s) = [x7a; x07; x00; x00; x00; x00] /\
    cmd_window (_mem s) = zeros PACKET_SIZE /\
    List.length (_mem s) = MEMORY_SIZE /\
    _tx_count s = 0%Z.
Proof.
  apply (init_publishes_ack config 67%Z [x7a; x07; x00; x00; x00; x00]);
    reflexivity.
Defined.

(** ** The further properties *)

Lemma rig_well_sized : well_sized.
Proof.
  intros p bs. cbn. unfold encode.
  destruct (byte_of_field (pfwd p)); [|discriminate].
  destruct (byte_of_field (sfwd p)); [|discriminate].
  destruct (byte_of_field (paft p)); [|discriminate].
  destruct (byte_of_field (saft p)); [|discriminate].
  intros E. injection E as <-. reflexivity.
Qed.

Lemma unknown_verb_is_answered_with_error_1_witness :
  let s := master_write (frame Command.ACK x00 x00 x00 x00) booted in
  let r := _irq_handler wrote s in
  rsp_window (_mem (final r)) = [x7a; x09; x0a; x00; x00; x00] /\
  _motor_controller (final r) = _motor_controller s /\
  _tx_count (final r) = (_tx_count s + 1)%Z /\
  In (Level.ERROR, "Error 1: unknown command: 07"%string) (logged (steps r)).
Proof.
  intros s.
  apply (unknown_verb_is_answered_with_error_1 s wrote
           (@mkPayload scalars x07 0%Z 0%Z 0%Z 0%Z) (Some Command.ACK)
           [x7a; x09; x0a; x00; x00; x00]).
  - vm_compute. lia.
  - vm_compute. discriminate.
  - reflexivity.
  - reflexivity.
  - reflexivity.
  - reflexivity.
  - reflexivity.
Defined.

Lemma stop_then_request_witness :
  let between := [frame Command.PING x00 x00 x00 x00; probe] in
  let s1 := transact wrote moving (frame Command.STOP x00 x00 x00 x00) in
  let s2 := fold_left (transact wrote) between s1 in
  let s3 := transact wrote s2 (frame Command.REQUEST x00 x00 x00 x00) in
  rsp_window (_mem s1) = [x7a; x07; x00; x00; x00; x00] /\
  MotorController.get_speeds (_motor_controller s1) = zero_speeds /\
  MotorController.enabled (_motor_controller s1) = true /\
  rsp_window (_mem s3) = [x7a; x08; x00; x00; x00; x00].
Proof.
  apply (stop_then_request moving wrote
           (frame Command.STOP x00 x00 x00 x00)
           (frame Command.REQUEST x00 x00 x00 x00)
           [frame Command.PING x00 x00 x00 x00; probe]
           [x7a; x07; x00; x00; x00; x00] [x7a; x08; x00; x00; x00; x00]).
  - vm_compute. lia.
  - vm_compute. discriminate.
  - reflexivity.
  - reflexivity.
  - reflexivity.
  - repeat constructor.
  - reflexivity.
  - reflexivity.
  - reflexivity.
  - reflexivity.
  - reflexivity.
  - reflexivity.
Defined.

Lemma enable_and_disable_are_acknowledged_witness :
  let s := master_write (frame Command.DISABLE x00 x00 x00 x00) moving in
  let s' := final (_irq_handler wrote s) in
  rsp_window (_mem s') = [x7a; x07; x00; x00; x00; x00] /\
  _motor_controller s' = MotorController.disable (_motor_controller s) /\
  _tx_count s' = (_tx_count s + 1)%Z.
Proof.
  intros s.
  apply (enable_and_disable_are_acknowledged s wrote
           (@mkPayload scalars x06 0%Z 0%Z 0%Z 0%Z) Command.DISABLE
           [x7a; x07; x00; x00; x00; x00]).
  - vm_compute. lia.
  - vm_compute. discriminate.
  - reflexivity.
  - reflexivity.
  - right. reflexivity.
  - reflexivity.
  - reflexivity.
Defined.

Lemma request_leaves_the_controller_witness :
  let s := master_write (frame Command.REQUEST x00 x00 x00 x00) moving in
  let r := _irq_handler wrote s in
  rsp_window (_mem (final r)) = [x7a; x08; x0a; x0a; xf6; xf6] /\
  _motor_controller (final r) = _motor_controller s /\
  _tx_count (final r) = (_tx_count s + 1)%Z /\
  In (Level.INFO, (Fore_BLUE ++ "command: REQUEST")%string) (logged (steps r)).
Proof.
  intros s.
  apply (request_leaves_the_controller s wrote
           (@mkPayload scalars x04 0%Z 0%Z 0%Z 0%Z)
           10%Z 10%Z (-10)%Z (-10)%Z [x7a; x08; x0a; x0a; xf6; xf6]).
  - vm_compute. lia.
  - vm_compute. discriminate.
  - reflexivity.
  - reflexivity.
  - reflexivity.
  - reflexivity.
  - reflexivity.
Defined.


Lemma handler_keeps_command_window_witness :
  let s := master_write (frame Command.GO x0a x0a xf6 xf6) booted in
  cmd_window (_mem (final (_irq_handler wrote s))) = cmd_window (_mem s).
Proof.
  intros s. apply (handler_keeps_command_window s wrote).
  vm_compute. lia.
Defined.

Lemma response_is_blank_or_one_frame_witness :
  let s := master_write (frame Command.PING x00 x00 x00 x00) booted in
  let r := _irq_handler wrote s in
  let w := rsp_window (_mem (final r)) in
  let m0 :=
    slice_assign (_mem s) RSP_OFFSET (RSP_OFFSET + PACKET_SIZE)
      (zeros PACKET_SIZE) in
  exists rest,
    steps r =
      (EvAssign RSP_OFFSET (RSP_OFFSET + PACKET_SIZE) (zeros PACKET_SIZE), m0)
        :: rest /\
    ((assigns rest = 0 /\ _mem (final r) = m0 /\ w = zeros PACKET_SIZE) \/
     exists pre p d post,
       rest = pre
              ++ (EvAssign RSP_OFFSET (RSP_OFFSET + PACKET_SIZE) d,
                  slice_assign m0 RSP_OFFSET (RSP_OFFSET + PACKET_SIZE) d)
              :: post /\
       assigns pre = 0 /\
       assigns post = 0 /\
       Payload_to_bytes p = Ok d /\
       _mem (final r)
       = slice_assign m0 RSP_OFFSET (RSP_OFFSET + PACKET_SIZE) d /\
       w = d).
Proof.
  intros s. apply (response_is_blank_or_one_frame s wrote).
  - exact rig_well_sized.
  - vm_compute. lia.
  - vm_compute. discriminate.
Defined.

Lemma buffer_keeps_its_size_witness :
  List.length
    (_mem
       (fold_left (transact wrote)
          [frame Command.ENABLE x00 x00 x00 x00;
           frame Command.GO x0a x0a xf6 xf6; probe]
          booted))
  = MEMORY_SIZE.
Proof.
  apply (buffer_keeps_its_size wrote
           [frame Command.ENABLE x00 x00 x00 x00;
            frame Command.GO x0a x0a xf6 xf6; probe]).
  - exact rig_well_sized.
  - vm_compute. discriminate.
  - repeat constructor.
  - reflexivity.
Defined.

Lemma enable_attaches_once_witness :
  let s1 := final (enable booted) in
  let r2 := enable s1 in
  outcome (enable booted) = Ok tt /\
  _i2c s1 = true /\
  _mem s1 = _mem booted /\
  _motor_controller s1 = _motor_controller booted /\
  _tx_count s1 = _tx_count booted /\
  outcome r2 = Ok tt /\
  final r2
  = set_log (_log s1 ++ [(Level.DEBUG, "I2C slave already enabled."%string)])
      s1.
Proof.
  apply (enable_attaches_once booted); reflexivity.
Defined.

Lemma first_read_sees_ack_witness :
  exists s,
    init (Some config) = Ok s /\
    outcome (enable s) = Ok tt /\
    _i2c (final (enable s)) = true /\
    rsp_window (_mem (final (enable s))) = [x7a; x07; x00; x00; x00; x00].
Proof.
  apply (first_read_sees_ack config 67%Z [x7a; x07; x00; x00; x00; x00]);
    reflexivity.
Defined.

Lemma refused_target_leaves_detached_witness :
  outcome (enable misaddressed)
  = Raise (mkExc ValueError "invalid I2C address") /\
  _i2c (final (enable misaddressed)) = false /\
  _mem (final (enable misaddressed)) = _mem misaddressed.
Proof.
  apply (refused_target_leaves_detached misaddressed
           (mkExc ValueError "invalid I2C address"));
    reflexivity.
Defined.

Lemma disable_blanks_the_buffer_witness :
  let s1 := final (disable attached) in
  let s2 := final (enable s1) in
  outcome (disable attached) = Ok tt /\
  _i2c s1 = false /\
  _mem s1 = zeros MEMORY_SIZE /\
  _motor_controller s1 = _motor_controller attached /\
  _tx_count s1 = _tx_count attached /\
  disable s1 = (Ok tt, s1, []) /\
  _i2c s2 = true /\
  rsp_window (_mem s2) = zeros PACKET_SIZE.
Proof.
  apply (disable_blanks_the_buffer attached); reflexivity.
Defined.

Lemma stored_speeds_come_from_go_witness :
  let ops :=
    [MotorController.Enable;
     MotorController.Go 10%Z 10%Z (-10)%Z (-10)%Z;
     MotorController.Go 3%Z 3%Z 3%Z 3%Z] in
  let v :=
    MotorController.get_speeds
      (MotorController.run ops (_motor_controller booted)) in
  v = zero_speeds \/
  exists a b c d, In (MotorController.Go a b c d) ops /\ v = (a, b, c, d).
Proof.
  intros ops.
  apply (stored_speeds_come_from_go config (_motor_controller booted) ops).
  reflexivity.
Defined.

Lemma closed_controller_is_inert_witness :
  let mc := _motor_controller moving in
  let ops :=
    [MotorController.Enable; MotorController.Go 10%Z 10%Z (-10)%Z (-10)%Z] in
  let after := MotorController.run ops (MotorController.close mc) in
  MotorController.closed after = true /\
  MotorController.enabled after = false /\
  MotorController.get_speeds after
  = MotorController.get_speeds (MotorController.close mc) /\
  MotorController.go 3%Z 3%Z 3%Z 3%Z after = (Response.FAIL, after) /\
  MotorController.stop after = (Response.FAIL, after) /\
  (MotorController.enabled mc = true ->
   MotorController.get_speeds after = zero_speeds).
Proof.
  intros mc ops.
  apply (closed_controller_is_inert mc ops 3%Z 3%Z 3%Z 3%Z).
Defined.

Lemma go_needs_enable_witness :
  let go_frame := frame Command.GO x0a x0a xf6 xf6 in
  let enable_frame := frame Command.ENABLE x00 x00 x00 x00 in
  exists s0,
    init (Some config) = Ok s0 /\
    let s1 := transact wrote s0 go_frame in
    let s2 := transact wrote s1 enable_frame in
    let s3 := transact wrote s2 go_frame in
    rsp_window (_mem s1) = [x7a; x09; x00; x00; x00; x00] /\
    MotorController.get_speeds (_motor_controller s1) = zero_speeds /\
    rsp_window (_mem s3) = [x7a; x07; x0a; x0a; xf6; xf6] /\
    MotorController.get_speeds (_motor_controller s3)
    = (10, 10, -10, -10)%Z.
Proof.
  apply (go_needs_enable config 67%Z wrote
           (frame Command.GO x0a x0a xf6 xf6)
           (frame Command.ENABLE x00 x00 x00 x00)
           (@mkPayload scalars x03 10%Z 10%Z (-10)%Z (-10)%Z)
           [x7a; x09; x00; x00; x00; x00] [x7a; x07; x0a; x0a; xf6; xf6]).
  - exact rig_well_sized.
  - reflexivity.
  - vm_compute. discriminate.
  - reflexivity.
  - reflexivity.
  - reflexivity.
  - reflexivity.
  - reflexivity.
  - reflexivity.
  - reflexivity.
Defined.
